(** * fprime_cli: subcommand registration, validation and dispatch

    A shallow embedding of [src/fprime_gds/executables/fprime_cli.py].

    Python objects that the module mutates ([argparse.Namespace] instances)
    live in a store indexed by references, so that [deepcopy] and attribute
    assignment keep the aliasing the source has.  Exceptions are an explicit
    outcome; output streams are logs of the lines written to them.  What the
    libraries decide ([argparse], the dictionary loader, the handlers of the
    subcommands) is a parameter of the development. *)

From Stdlib Require Import ZArith.
From stdpp Require Import gmap strings list fin_maps.

Open Scope string_scope.

(** ** Python values *)

(** The three classes derived from [CliSubparserInjectorBase]. *)
Inductive injector := Channels | CommandSend | Events.

(** Values stored in namespace attributes and in keyword arguments.
    [PyCommandFunc] and [PyValidateArgs] are the bound class methods that
    [inject_subparser] stores with [set_defaults(func=..., validate=...)].
    [PyClosedBytesIO] is a closed [io.BytesIO], an object that [copy.deepcopy]
    refuses with [ValueError]. *)
Inductive pyval :=
  | PyNone
  | PyBool (b : bool)
  | PyStr (s : string)
  | PyList (l : list string)
  | PyType (name : string)
  | PyCommandFunc (c : injector)
  | PyValidateArgs (c : injector)
  | PyClosedBytesIO.

#[global] Instance injector_eq_dec : EqDecision injector.
Proof. solve_decision. Defined.

#[global] Instance pyval_eq_dec : EqDecision pyval.
Proof. solve_decision. Defined.

(** Python truth value testing: [None], [False], the empty string and the
    empty list are false, every other value is true. *)
Definition truthy (v : pyval) : bool :=
  match v with
  | PyNone => false
  | PyBool b => b
  | PyStr s => negb (String.eqb s "")
  | PyList l => match l with [] => false | _ :: _ => true end
  | PyType _ | PyCommandFunc _ | PyValidateArgs _ | PyClosedBytesIO => true
  end.

(** Whether [copy.deepcopy] copies the value. *)
Definition copyable (v : pyval) : bool :=
  match v with
  | PyClosedBytesIO => false
  | _ => true
  end.

(** [name.startswith(prefix)] *)
Definition startswith (name prefix : string) : bool := String.prefix prefix name.

(** The double quote character, as a string. *)
Definition dquote : string :=
  String (Ascii.Ascii false true false false false true false false) EmptyString.

(** ** Exceptions and outcomes *)

(** [ReferenceError] is the outcome of an access through a reference that
    points to no object of the store; references obtained from the store never
    produce it. *)
Inductive exn :=
  | SystemExit (code : option Z)
  | AttributeError (name : string)
  | ValueError (msg : string)
  | TypeError (msg : string)
  | IndexError (msg : string)
  | FileNotFoundError (msg : string)
  | ArgumentError (msg : string)
  | DistributionNotFound (msg : string)
  | ReferenceError.

(** Exit status of the interpreter when the exception reaches the top level:
    [SystemExit(None)] is success, [SystemExit(n)] is [n], any other uncaught
    exception is 1. *)
Definition exit_status (e : exn) : Z :=
  match e with
  | SystemExit None => 0
  | SystemExit (Some n) => n
  | _ => 1
  end.

Definition is_ValueError (e : exn) : bool :=
  match e with ValueError _ => true | _ => false end.

Inductive outcome (A : Type) :=
  | Return (a : A)
  | Raise (e : exn).
Arguments Return {A} a.
Arguments Raise {A} e.

Definition obind {A B} (o : outcome A) (k : A → outcome B) : outcome B :=
  match o with
  | Return a => k a
  | Raise e => Raise e
  end.

(** ** The store *)

(** References to objects in the store. *)
Abbreviation loc := positive.

(** The attribute dictionary of an [argparse.Namespace]. *)
Abbreviation namespace := (gmap string pyval).

(** Every attribute value is one that [copy.deepcopy] copies. *)
Definition all_copyable (ns : namespace) : Prop :=
  map_Forall (fun _ v => copyable v = true) ns.

(** [cwd] is the working directory of the process; [None] when the directory
    was removed. *)
Record world := World {
  heap : gmap loc namespace;
  cwd : option string;
  stdout : list string;
  stderr : list string;
  warnings : list string
}.

Definition set_heap (h : gmap loc namespace) (w : world) : world :=
  World h (cwd w) (stdout w) (stderr w) (warnings w).

Definition M (A : Type) : Type := world → outcome A * world.

Definition ret {A} (a : A) : M A := fun w => (Return a, w).

Definition raise {A} (e : exn) : M A := fun w => (Raise e, w).

Definition bind {A B} (m : M A) (k : A → M B) : M B :=
  fun w =>
    match m w with
    | (Return a, w') => k a w'
    | (Raise e, w') => (Raise e, w')
    end.

Notation "'let*' x ':=' c 'in' k" := (bind c (fun x => k))
  (at level 10, x pattern, c at level 100, k at level 200).

Notation "c ';;;' k" := (bind c (fun _ => k))
  (at level 100, k at level 200, right associativity).

(** [try: body except <catches>: handler] *)
Definition try_except {A} (body : M A) (catches : exn → bool) (handler : M A) : M A :=
  fun w =>
    match body w with
    | (Return a, w') => (Return a, w')
    | (Raise e, w') => if catches e then handler w' else (Raise e, w')
    end.

(** Attribute access on the object a reference points to. *)
Definition hasattr (o : loc) (name : string) : M bool :=
  fun w =>
    match heap w !! o with
    | Some ns => (Return (bool_decide (is_Some (ns !! name))), w)
    | None => (Raise ReferenceError, w)
    end.

Definition getattr (o : loc) (name : string) : M pyval :=
  fun w =>
    match heap w !! o with
    | Some ns =>
        match ns !! name with
        | Some v => (Return v, w)
        | None => (Raise (AttributeError name), w)
        end
    | None => (Raise ReferenceError, w)
    end.

Definition setattr (o : loc) (name : string) (v : pyval) : M unit :=
  fun w =>
    match heap w !! o with
    | Some ns => (Return tt, set_heap (<[o := <[name := v]> ns]> (heap w)) w)
    | None => (Raise ReferenceError, w)
    end.

(** [copy.deepcopy] of a namespace: a new object with the same attributes,
    or the [ValueError] of a closed stream among its values. *)
Definition deepcopy (o : loc) : M loc :=
  fun w =>
    match heap w !! o with
    | Some ns =>
        if decide (all_copyable ns) then
          let o' := fresh (dom (heap w)) in
          (Return o', set_heap (<[o' := ns]> (heap w)) w)
        else (Raise (ValueError "__getstate__ on closed file"), w)
    | None => (Raise ReferenceError, w)
    end.

(** A new [Namespace] object with the given attributes. *)
Definition new_namespace (ns : namespace) : M loc :=
  fun w =>
    let o := fresh (dom (heap w)) in
    (Return o, set_heap (<[o := ns]> (heap w)) w).

(** [os.getcwd()] *)
Definition os_getcwd : M string :=
  fun w =>
    match cwd w with
    | Some d => (Return d, w)
    | None => (Raise (FileNotFoundError "No such file or directory"), w)
    end.

Definition print_stdout (s : string) : M unit :=
  fun w => (Return tt, World (heap w) (cwd w) (stdout w ++ [s]) (stderr w) (warnings w)).

Definition print_stderr (s : string) : M unit :=
  fun w => (Return tt, World (heap w) (cwd w) (stdout w) (stderr w ++ [s]) (warnings w)).

(** [argcomplete.warn] *)
Definition argcomplete_warn (s : string) : M unit :=
  fun w => (Return tt, World (heap w) (cwd w) (stdout w) (stderr w) (warnings w ++ [s])).

(** [sys.exit(code)] *)
Definition sys_exit {A} (code : option Z) : M A := raise (SystemExit code).

(** ** argparse parsers *)

(** Keyword arguments of [add_argument]: passed through, never inspected. *)
Abbreviation kwargs := (list (string * pyval)) (only parsing).

(** An argument specifier: the tuple of flags that keys an argument table. *)
Abbreviation specifier := (list string) (only parsing).

Inductive completer := complete_command_name_ref.

(** What one call of [add_argument] registers. *)
Record action := Action {
  option_strings : specifier;
  action_kwargs : kwargs;
  action_completer : option completer
}.

Record argument_group := ArgumentGroup {
  title : string;
  group_actions : list action
}.

(** [actions] are the arguments given to the parser itself with
    [add_argument], [groups] its argument groups. *)
Record parser := Parser {
  prog : string;
  description : string;
  actions : list action;
  groups : list argument_group;
  defaults : list (string * pyval)
}.

(** The top-level parser with the table built by [add_subparsers]. *)
Record root_parser := RootParser {
  top : parser;
  subparsers_dest : string;
  name_parser_map : list (string * parser)
}.

(** [argparse.ArgumentParser(prog=..., description=...)]: a parser is born
    with its help option. *)
Definition ArgumentParser (prog description : string) : parser :=
  Parser prog description
    [Action ["-h"; "--help"]
       [("action", PyStr "help"); ("default", PyStr "==SUPPRESS==");
        ("help", PyStr "show this help message and exit")]
       None]
    [] [].

(** [parser.add_argument_group(title)]: the new group is the last one; the
    handle returned is its position. *)
Definition add_argument_group (p : parser) (t : string) : parser * nat :=
  (Parser (prog p) (description p) (actions p)
     (groups p ++ [ArgumentGroup t []]) (defaults p),
   length (groups p)).

(** [parser.set_defaults] with the given keyword arguments. *)
Definition set_defaults (kw : list (string * pyval)) (p : parser) : parser :=
  Parser (prog p) (description p) (actions p) (groups p) (defaults p ++ kw).

(** [subparser_root.add_parser(name, description=...)]: the new parser. *)
Definition add_parser (parent_prog name description : string) : parser :=
  ArgumentParser (parent_prog ++ " " ++ name) description.

(** [arg[0]] on a tuple of flags. *)
Definition index0 (arg : specifier) : outcome string :=
  match arg with
  | [] => Raise (IndexError "tuple index out of range")
  | a0 :: _ => Return a0
  end.

(** [for k, v in table.items(): s = body(k, v, s)] *)
Fixpoint for_items {K V S} (items : list (K * V)) (body : K → V → S → outcome S)
    (s : S) : outcome S :=
  match items with
  | [] => Return s
  | (k, v) :: rest => obind (body k v s) (for_items rest body)
  end.

Definition lift {A} (o : outcome A) : M A := fun w => (o, w).

(** The action a group registers for one entry of an argument table. *)
Definition to_action (item : specifier * kwargs) : action :=
  Action item.1 item.2 None.

(** The entries a group holds, as (specifier, configuration) pairs. *)
Definition registered_pairs (g : argument_group) : list (specifier * kwargs) :=
  (fun a => (option_strings a, action_kwargs a)) <$> group_actions g.

(** The parser [p] with one more group, holding the given actions. *)
Definition with_group (t : string) (acts : list action) (p : parser) : parser :=
  Parser (prog p) (description p) (actions p)
    (groups p ++ [ArgumentGroup t acts]) (defaults p).

(** The test of the retrieval loop on one entry: its first flag is not in
    the exclusion list. *)
Definition is_retained (exclude : list string) (item : specifier * kwargs) : bool :=
  match item.1 with
  | [] => false
  | arg0 :: _ => bool_decide (arg0 ∉ exclude)
  end.

(** Modelled from the spec: the timeout option of the retrieval group.  The
    table of [RetrievalArgumentsParser] is declared in [fprime_gds.executables.cli],
    outside this module; the specifier is the pair of flags that
    [command-send] names in its exclusion list. *)
Definition timeout_specifier : specifier := ["-t"; "--timeout"].

(** ** Sample inputs

    Concrete namespaces, tables and collaborators on which the results below
    are exercised. *)

(** A world whose store holds one namespace, at reference 1. *)
Definition world_of (ns : namespace) : world :=
  World {[1%positive := ns]} (Some "/home/user/Ref") [] [] [].

Definition empty_world : world := World ∅ (Some "/home/user/Ref") [] [] [].

(** [Namespace()]: nothing parsed yet, as the completer can see it. *)
Definition bare_args : namespace := ∅.

(** [--dictionary /no/such/dictionary.xml] *)
Definition explicit_args : namespace :=
  {["dictionary" := PyStr "/no/such/dictionary.xml"]}.


(** [command-send] with neither a command name nor [--list]. *)
Definition missing_name_args : namespace :=
  <["command_name" := PyNone]> (<["is_printing_list" := PyBool false]> ∅).

(** [command-send ''] : the command name given as an empty token. *)
Definition empty_name_args : namespace :=
  <["command_name" := PyStr ""]> (<["is_printing_list" := PyBool false]> ∅).

(** [command-send cmdDisp.CMD_NO_OP], seen before the list flag is there. *)
Definition named_args : namespace :=
  {["command_name" := PyStr "cmdDisp.CMD_NO_OP"]}.

(** [channels --dictionary dict.xml], as the subparser returns it. *)
Definition channels_args : namespace :=
  <["func" := PyCommandFunc Channels]>
    (<["validate" := PyValidateArgs Channels]>
       (<["dictionary" := PyStr "dict.xml"]> ∅)).

(** [command-send], as the subparser returns it. *)
Definition rejected_args : namespace :=
  <["func" := PyCommandFunc CommandSend]>
    (<["validate" := PyValidateArgs CommandSend]>
       (<["command_name" := PyNone]>
          (<["is_printing_list" := PyBool false]>
             (<["arguments" := PyList []]> ∅)))).

Definition sample_pipeline_table : list (specifier * kwargs) :=
  [(["--dictionary"], [("dest", PyStr "dictionary"); ("required", PyBool false)]);
   (["--ip-address"], [("dest", PyStr "tts_addr"); ("default", PyStr "0.0.0.0")])].

Definition sample_search_table (command_name : string) : list (specifier * kwargs) :=
  [(["-l"; "--list"],
    [("dest", PyStr "is_printing_list"); ("action", PyStr "store_true");
     ("help", PyStr ("list all possible " ++ command_name ++ " types"))]);
   (["-i"; "--ids"], [("dest", PyStr "ids"); ("nargs", PyStr "+")])].

Definition sample_retrieval_table (command_name : string) : list (specifier * kwargs) :=
  [(["-t"; "--timeout"],
    [("dest", PyStr "timeout"); ("metavar", PyStr "SECONDS");
     ("help", PyStr ("wait at most SECONDS seconds for a single new " ++
                     command_name ++ " message, then exit"))]);
   (["-j"; "--json"], [("dest", PyStr "json"); ("action", PyStr "store_true")])].

(** A table whose timeout option has another short flag. *)
Definition capital_retrieval_table (command_name : string) : list (specifier * kwargs) :=
  [(["-T"; "--timeout"], [("dest", PyStr "timeout")]);
   (["--json"; "-j"], [("dest", PyStr "json")])].

(** A retrieval table with an entry keyed by the empty tuple. *)
Definition broken_retrieval_table (command_name : string) : list (specifier * kwargs) :=
  [(["-j"; "--json"], [("dest", PyStr "json")]);
   ([], [("dest", PyStr "timeout")])].

(** The option strings a parser holds, its groups included. *)
Definition held_option_strings (p : parser) : list string :=
  concat (option_strings <$> actions p) ++
  concat ((fun g => concat (option_strings <$> group_actions g)) <$> groups p).

Definition is_option_string (flag : string) : bool := startswith flag "-".

(** An argparse with three refusals: an empty specifier without [dest], a
    flag without a leading dash among several, an option string the parser
    already holds. *)
Definition sample_refuses (p : parser) (flags : specifier) (kw : kwargs) : option exn :=
  match flags with
  | [] =>
      if bool_decide ("dest" ∈ kw.*1) then None
      else Some (TypeError "missing 1 required positional argument: 'dest'")
  | [flag] =>
      if is_option_string flag then
        if bool_decide (flag ∈ held_option_strings p)
        then Some (ArgumentError "conflicting option string")
        else None
      else None
  | _ =>
      if forallb is_option_string flags then
        if bool_decide (Exists (fun flag => flag ∈ held_option_strings p) flags)
        then Some (ArgumentError "conflicting option strings")
        else None
      else Some (ValueError "invalid option string: must start with a character '-'")
  end.

(** Whether the string has a slash (character 47). *)
Fixpoint has_slash (s : string) : bool :=
  match s with
  | EmptyString => false
  | String c rest => if Ascii.eqb c (Ascii.ascii_of_nat 47) then true else has_slash rest
  end.

(** [posixpath.basename]: what follows the last slash. *)
Fixpoint posix_basename (s : string) : string :=
  match s with
  | EmptyString => EmptyString
  | String c rest =>
      if has_slash rest then posix_basename rest
      else if Ascii.eqb c (Ascii.ascii_of_nat 47) then rest
      else s
  end.

Definition sample_command_names (path packet_spec : pyval) : M (list string) :=
  ret ["EVENTS.CMD_A"; "EVENTS.CMD_B"; "OTHER.CMD_C"].

(** A loader that rejects every dictionary. *)
Definition failing_command_names (path packet_spec : pyval) : M (list string) :=
  raise (ValueError "dictionary is not valid").

(** An argparse that knows the empty command line only. *)
Definition sample_parse_args (p : root_parser) (arguments : list string) : M loc :=
  match arguments with
  | [] => new_namespace {["func" := PyNone]}
  | _ :: _ => raise (SystemExit (Some 2%Z))
  end.

(** An argparse that knows two command lines. *)
Definition sample_parse_subcommand (p : root_parser) (arguments : list string) : M loc :=
  match arguments with
  | ["channels"; "--dictionary"; "dict.xml"] => new_namespace channels_args
  | ["command-send"] => new_namespace rejected_args
  | _ => raise (SystemExit (Some 2%Z))
  end.

Definition sample_usage (p : root_parser) : string :=
  "usage: " ++ prog (top p) ++ " [-h] [-V] {channels,command-send,events} ...".

Definition sample_help (p : root_parser) : string :=
  sample_usage p ++ " -- " ++ description (top p).

Definition sample_root : root_parser :=
  RootParser
    (ArgumentParser "fprime-cli"
       "provides utilities for interacting with the F' Ground Data System (GDS)")
    "func" [].

Definition sample_handle_arguments (cls : injector) (args : loc) : M unit :=
  print_stdout "handled".

Definition sample_autocomplete (p : root_parser) : M unit := ret tt.


(** Proof steps for the sample inputs: a namespace whose values are all
    copied, and a table that the sample argparse takes. *)
Ltac solve_copyable := apply (bool_decide_unpack _); vm_compute; exact I.

Ltac solve_accepted := vm_compute; repeat split.

Section Cli.

Set Default Proof Using "Type".

(** ** Collaborators outside this module *)

(** [StandardPipelineParser().get_arguments()], and the same for
    [SearchArgumentsParser(command_name)] and
    [RetrievalArgumentsParser(command_name)]: ordered tables from specifier to
    keyword arguments. *)
Variable StandardPipelineParser_get_arguments : list (specifier * kwargs).
Variable SearchArgumentsParser_get_arguments : string → list (specifier * kwargs).
Variable RetrievalArgumentsParser_get_arguments : string → list (specifier * kwargs).

(** What [add_argument] raises, if it does, when it is called with these
    flags and keyword arguments on a parser that holds what [p] holds, or on
    one of its groups: argparse refuses an option string the parser already
    has, a specifier or keyword arguments it cannot make an action of, and so
    on.  [None] when argparse takes the argument. *)
Variable argparse_refuses : parser → specifier → kwargs → option exn.

(** [Dictionaries().load_dictionaries(path, packet_spec)] followed by
    [command_name.keys()]: the command names in the order of the index. *)
Variable Dictionaries_command_names : pyval → pyval → M (list string).

(** [ArgumentParser.parse_args], [format_usage] and [format_help]. *)
Variable argparse_parse_args : root_parser → list string → M loc.
Variable format_usage : root_parser → string.
Variable format_help : root_parser → string.

(** [pkg_resources.get_distribution("fprime-gds").version], or what the
    lookup raises. *)
Variable fprime_gds_version : outcome string.

(** [os.path.basename] *)
Variable os_path_basename : string → string.

(** [ChannelsCommand.handle_arguments] and its two siblings. *)
Variable handle_arguments : injector → loc → M unit.

(** [argcomplete.autocomplete] *)
Variable argcomplete_autocomplete : root_parser → M unit.

(** [parser.error(message)]: usage and message on stderr, exit status 2. *)
Definition parser_error (p : root_parser) (message : string) : M unit :=
  print_stderr (format_usage p);;;
  print_stderr (prog (top p) ++ ": error: " ++ message);;;
  sys_exit (Some 2%Z).

(** The world [parser.error] leaves behind. *)
Definition after_parser_error (p : root_parser) (message : string) (w : world) : world :=
  World (heap w) (cwd w) (stdout w)
    (stderr w ++ [format_usage p; prog (top p) ++ ": error: " ++ message])
    (warnings w).

(** [parser.print_help()] *)
Definition print_help (p : root_parser) : M unit :=
  print_stdout (format_help p).

(** [parser.add_argument] with the given flags and keyword arguments, on the
    parser itself: the argument is registered unless argparse refuses it. *)
Definition add_argument (flags : specifier) (kw : kwargs) (c : option completer)
    (p : parser) : outcome parser :=
  match argparse_refuses p flags kw with
  | Some e => Raise e
  | None =>
      Return (Parser (prog p) (description p) (actions p ++ [Action flags kw c])
                (groups p) (defaults p))
  end.

(** [group.add_argument] on the group with handle [g]. *)
Definition group_add_argument (g : nat) (flags : specifier) (kw : kwargs)
    (p : parser) : outcome parser :=
  match argparse_refuses p flags kw with
  | Some e => Raise e
  | None =>
      Return (Parser (prog p) (description p) (actions p)
                (alter (fun grp => ArgumentGroup (title grp)
                                     (group_actions grp ++ [Action flags kw None]))
                       g (groups p))
                (defaults p))
  end.

(** Argparse takes the entries of [items] one after the other into the new
    last group [t] of [p], which holds [acts] when the first one comes. *)
Fixpoint accepted (t : string) (p : parser) (acts : list action)
    (items : list (specifier * kwargs)) : Prop :=
  match items with
  | [] => True
  | item :: rest =>
      argparse_refuses (with_group t acts p) item.1 item.2 = None ∧
      accepted t p (acts ++ [to_action item]) rest
  end.

(** ** Shared argument groups *)

Definition add_connection_arguments (p : parser) : outcome parser :=
  let pipeline_parser_args := StandardPipelineParser_get_arguments in
  let '(p, pipeline_parser) := add_argument_group p "GDS Options" in
  for_items pipeline_parser_args
    (fun arg kw p => group_add_argument pipeline_parser arg kw p) p.

Definition add_retrieval_arguments (p : parser) (command_name : string)
    (exclude : option (list string)) : outcome parser :=
  let exclude := match exclude with None => [] | Some e => e end in
  let retrieval_parser_args := RetrievalArgumentsParser_get_arguments command_name in
  let '(p, retrieval_parser) := add_argument_group p "Retrieval Options" in
  for_items retrieval_parser_args
    (fun arg kw p =>
       obind (index0 arg) (fun arg0 =>
         if bool_decide (arg0 ∉ exclude)
         then group_add_argument retrieval_parser arg kw p
         else Return p))
    p.

Definition add_search_arguments (p : parser) (command_name : string) : outcome parser :=
  let search_parser_args := SearchArgumentsParser_get_arguments command_name in
  let '(p, search_parser) := add_argument_group p "Search/Filtering Options" in
  for_items search_parser_args
    (fun arg kw p => group_add_argument search_parser arg kw p) p.

(** ** The dictionary resolver *)

Definition get_dictionary_path (current_args : loc) : M pyval :=
  let* args := deepcopy current_args in
  let* has := hasattr args "dictionary" in
  (if negb has then setattr args "dictionary" PyNone else ret tt);;;
  let* d := os_getcwd in
  setattr args "deploy" (PyStr d);;;
  setattr args "config" PyNone;;;
  getattr args "dictionary".

(** The private copy when [get_dictionary_path] has defaulted [dictionary]. *)
Definition with_dictionary (ns : namespace) : namespace :=
  match ns !! "dictionary" with
  | Some _ => ns
  | None => <["dictionary" := PyNone]> ns
  end.

(** The private copy that [get_dictionary_path] leaves behind: the attributes
    of the argument, with [dictionary] defaulted and [deploy] and [config]
    overwritten. *)
Definition resolver_copy (d : string) (ns : namespace) : namespace :=
  <["config" := PyNone]>
    (<["deploy" := PyStr d]>
       (match ns !! "dictionary" with
        | Some _ => ns
        | None => <["dictionary" := PyNone]> ns
        end)).

Definition add_valid_dictionary (args : loc) : M loc :=
  let* d := get_dictionary_path args in
  setattr args "dictionary" d;;;
  ret args.

(** ** The command descriptors *)

(** [CliSubparserInjectorBase.validate_args] *)
Definition base_validate_args (p : root_parser) (args : loc) : M loc :=
  let* args :=
    try_except (add_valid_dictionary args) is_ValueError
      (parser_error p "No valid project dictionary found";;; ret args) in
  ret args.

(** [CommandSubparserInjector.validate_args] *)
Definition command_validate_args (p : root_parser) (args : loc) : M loc :=
  let* command_name := getattr args "command_name" in
  let* ok :=
    (if truthy command_name then ret true
     else let* is_printing_list := getattr args "is_printing_list" in
          ret (truthy is_printing_list)) in
  (if negb ok then parser_error p "One of command-name or --list is required"
   else ret tt);;;
  let* args := base_validate_args p args in
  ret args.

Definition validate_args (cls : injector) (p : root_parser) (args : loc) : M loc :=
  match cls with
  | Channels | Events => base_validate_args p args
  | CommandSend => command_validate_args p args
  end.

(** How a run of [validate_args] ends when [parser.error] was called. *)
Definition usage_error {A} (r : outcome A * world) : Prop :=
  r.1 = Raise (SystemExit (Some 2%Z)).

(** The optional positional [command_name] was not given: argparse stores
    [None] for it. *)
Definition command_name_absent (ns : namespace) : Prop :=
  ns !! "command_name" = Some PyNone.

(** The list-mode flag is false. *)
Definition list_mode_off (ns : namespace) : Prop :=
  ns !! "is_printing_list" = Some (PyBool false).

(** [CommandSubparserInjector.complete_command_name] *)
Definition complete_command_name (prefix : string) (parsed_args : loc) : M (list string) :=
  let* r :=
    try_except
      (let* dict_path := get_dictionary_path parsed_args in ret (inl dict_path))
      is_ValueError
      (argcomplete_warn "No dictionary found to get command names from";;;
       ret (inr [])) in
  match r with
  | inr early => ret early
  | inl dict_path =>
      let* command_names := Dictionaries_command_names dict_path PyNone in
      ret (filter (fun name => startswith name prefix = true) command_names)
  end.

Definition subcommand_name (cls : injector) : string :=
  match cls with
  | Channels => "channels"
  | CommandSend => "command-send"
  | Events => "events"
  end.

Definition subcommand_description (cls : injector) : string :=
  match cls with
  | Channels =>
      "print out new telemetry data that has been received from the F Prime instance, sorted by timestamp"
  | CommandSend => "sends the given command to the spacecraft via the GDS"
  | Events =>
      "print out new events that have occurred on the F Prime instance, sorted by timestamp"
  end.

Definition create_subparser (cls : injector) (parent_prog : string) : parser :=
  add_parser parent_prog (subcommand_name cls) (subcommand_description cls).

(** The name under which a subcommand asks for its search and retrieval
    tables, and the exclusion list it passes to [add_retrieval_arguments]. *)
Definition table_name (cls : injector) : string :=
  match cls with
  | Channels => "channels"
  | CommandSend => "commands"
  | Events => "events"
  end.

Definition retrieval_exclude (cls : injector) : option (list string) :=
  match cls with
  | CommandSend => Some ["-t"; "--timeout"]
  | Channels | Events => None
  end.

(** The keyword arguments of the two arguments [command-send] declares. *)
Definition command_name_kwargs : kwargs :=
  [("help",
    PyStr ("the full name of the command you want to execute in " ++
           dquote ++ "<component>.<name>" ++ dquote ++ " form"));
   ("nargs", PyStr "?");
   ("metavar", PyStr "command-name")].

Definition arguments_kwargs : kwargs :=
  [("nargs", PyStr "*");
   ("type", PyType "str");
   ("default", PyList []);
   ("help", PyStr "provide a space-separated set of arguments to the command being sent")].

Definition add_arguments (cls : injector) (p : parser) : outcome parser :=
  match cls with
  | Channels =>
      obind (add_connection_arguments p) (fun p =>
      obind (add_search_arguments p "channels") (fun p =>
      add_retrieval_arguments p "channels" None))
  | CommandSend =>
      obind (add_connection_arguments p) (fun p =>
      obind
        (add_argument ["command_name"] command_name_kwargs
           (Some complete_command_name_ref) p) (fun p =>
      obind (add_argument ["--arguments"] arguments_kwargs None p) (fun p =>
      obind (add_search_arguments p "commands") (fun p =>
      add_retrieval_arguments p "commands" (Some ["-t"; "--timeout"])))))
  | Events =>
      obind (add_connection_arguments p) (fun p =>
      obind (add_search_arguments p "events") (fun p =>
      add_retrieval_arguments p "events" None))
  end.

(** [inject_subparser]: the parser of the subcommand is created under the
    parent, filled, given its two defaults, and is then what the parent's
    table holds under the subcommand's name. *)
Definition inject_subparser (cls : injector) (parent : root_parser) : outcome root_parser :=
  let command_parser := create_subparser cls (prog (top parent)) in
  obind (add_arguments cls command_parser) (fun command_parser =>
  let command_parser :=
    set_defaults [("func", PyCommandFunc cls); ("validate", PyValidateArgs cls)]
      command_parser in
  Return (RootParser (top parent) (subparsers_dest parent)
            (name_parser_map parent ++ [(subcommand_name cls, command_parser)]))).

(** ** The root dispatcher *)

(** [sys.argv[0]], which [ArgumentParser] reads for its program name. *)
Definition sys_argv0 (sys_argv : list string) : outcome string :=
  match sys_argv with
  | [] => Raise (IndexError "list index out of range")
  | argv0 :: _ => Return argv0
  end.

Definition create_parser (sys_argv : list string) : outcome root_parser :=
  obind (sys_argv0 sys_argv) (fun argv0 =>
  let p :=
    ArgumentParser (os_path_basename argv0)
      "provides utilities for interacting with the F' Ground Data System (GDS)" in
  obind fprime_gds_version (fun version =>
  obind
    (add_argument ["-V"; "--version"]
       [("action", PyStr "version"); ("version", PyStr version)] None p) (fun p =>
  let subparser_root := RootParser p "func" [] in
  obind (inject_subparser Channels subparser_root) (fun subparser_root =>
  obind (inject_subparser CommandSend subparser_root) (fun subparser_root =>
  inject_subparser Events subparser_root))))).

(** Calling the value of [args.validate]. *)
Definition call_validate (v : pyval) (p : root_parser) (args : loc) : M loc :=
  match v with
  | PyValidateArgs cls => validate_args cls p args
  | _ => raise (TypeError "object is not callable")
  end.

Definition parse_args (p : root_parser) (arguments : list string) : M loc :=
  let* args := argparse_parse_args p arguments in
  let* func := getattr args "func" in
  (if negb (truthy func) then print_help p;;; sys_exit None else ret tt);;;
  let* validate := getattr args "validate" in
  let* args := call_validate validate p args in
  ret args.

Definition command_func (cls : injector) (parsed_args : loc) : M unit :=
  handle_arguments cls parsed_args.

(** Calling the value of [args_ns.func]. *)
Definition call_function (v : pyval) (args : loc) : M unit :=
  match v with
  | PyCommandFunc cls => command_func cls args
  | _ => raise (TypeError "object is not callable")
  end.

Definition main (sys_argv : list string) : M unit :=
  let* p := lift (create_parser sys_argv) in
  argcomplete_autocomplete p;;;
  let* args_ns := parse_args p (tail sys_argv) in
  let* function := getattr args_ns "func" in
  call_function function args_ns.

(** ** Properties of the dictionary resolver *)

Lemma fresh_heap_lookup (h : gmap loc namespace) : h !! fresh (dom h) = None.
Proof. apply not_elem_of_dom, is_fresh. Qed.

Lemma fresh_heap_ne (h : gmap loc namespace) (o : loc) :
  is_Some (h !! o) → fresh (dom h) ≠ o.
Proof. intros [ns Ho] Heq. rewrite <- Heq, fresh_heap_lookup in Ho. discriminate. Qed.

Lemma all_copyable_insert (ns : namespace) (k : string) (v : pyval) :
  all_copyable ns → copyable v = true → all_copyable (<[k := v]> ns).
Proof. intros Hns Hv. by apply map_Forall_insert_2. Qed.

Lemma all_copyable_default (ns : namespace) (k : string) :
  all_copyable ns → copyable (default PyNone (ns !! k)) = true.
Proof.
  intros Hns. destruct (ns !! k) as [v|] eqn:Hk; [|done].
  exact (map_Forall_lookup_1 _ _ _ _ Hns Hk).
Qed.

Lemma get_dictionary_path_run (args : loc) (ns : namespace) (d : string)
    (w : world) :
  heap w !! args = Some ns →
  all_copyable ns →
  cwd w = Some d →
  get_dictionary_path args w =
    (Return (default PyNone (ns !! "dictionary")),
     set_heap (<[fresh (dom (heap w)) := resolver_copy d ns]> (heap w)) w).
Proof.
  intros Hargs Hcopy Hcwd.
  unfold get_dictionary_path, bind, deepcopy, hasattr, setattr, getattr,
    os_getcwd, ret, resolver_copy.
  rewrite Hargs, decide_True by done. cbn.
  rewrite lookup_insert_eq.
  destruct (ns !! "dictionary") as [v|] eqn:Hd; cbn;
    repeat (first [rewrite lookup_insert_eq | rewrite Hcwd]; cbn).
  - rewrite !lookup_insert_ne, Hd by done.
    unfold set_heap; cbn. by rewrite !insert_insert_eq.
  - rewrite !lookup_insert_ne, lookup_insert_eq by done.
    unfold set_heap; cbn. by rewrite !insert_insert_eq.
Qed.

Lemma get_dictionary_path_uncopyable (args : loc) (ns : namespace) (w : world) :
  heap w !! args = Some ns →
  ¬ all_copyable ns →
  get_dictionary_path args w =
    (Raise (ValueError "__getstate__ on closed file"), w).
Proof.
  intros Hargs Hcopy. unfold get_dictionary_path, bind, deepcopy.
  by rewrite Hargs, decide_False.
Qed.

Lemma get_dictionary_path_no_cwd (args : loc) (ns : namespace) (w : world) :
  heap w !! args = Some ns →
  all_copyable ns →
  cwd w = None →
  get_dictionary_path args w =
    (Raise (FileNotFoundError "No such file or directory"),
     set_heap (<[fresh (dom (heap w)) := with_dictionary ns]> (heap w)) w).
Proof.
  intros Hargs Hcopy Hcwd.
  unfold get_dictionary_path, bind, deepcopy, hasattr, setattr, getattr,
    os_getcwd, ret, with_dictionary.
  rewrite Hargs, decide_True by done. cbn.
  rewrite lookup_insert_eq.
  destruct (ns !! "dictionary") as [v|] eqn:Hd; cbn;
    repeat (first [rewrite lookup_insert_eq | rewrite Hcwd]; cbn); [done|].
  unfold set_heap; cbn. by rewrite !insert_insert_eq.
Qed.

Lemma get_dictionary_path_dangling (args : loc) (w : world) :
  heap w !! args = None →
  get_dictionary_path args w = (Raise ReferenceError, w).
Proof.
  intros Hargs. unfold get_dictionary_path, bind, deepcopy. by rewrite Hargs.
Qed.

(** The ways a call of the resolver can end. *)
Lemma get_dictionary_path_cases (args : loc) (ns : namespace) (w : world) :
  heap w !! args = Some ns →
  (all_copyable ns ∧ ∃ d, cwd w = Some d ∧
     get_dictionary_path args w =
       (Return (default PyNone (ns !! "dictionary")),
        set_heap (<[fresh (dom (heap w)) := resolver_copy d ns]> (heap w)) w)) ∨
  (¬ all_copyable ns ∧
     get_dictionary_path args w =
       (Raise (ValueError "__getstate__ on closed file"), w)) ∨
  (all_copyable ns ∧ cwd w = None ∧
     get_dictionary_path args w =
       (Raise (FileNotFoundError "No such file or directory"),
        set_heap (<[fresh (dom (heap w)) := with_dictionary ns]> (heap w)) w)).
Proof.
  intros Hargs. destruct (decide (all_copyable ns)) as [Hcopy|Hcopy].
  - destruct (cwd w) as [d|] eqn:Hcwd.
    + left. split; [done|]. exists d. split; [done|].
      by apply get_dictionary_path_run.
    + right. right. split; [done|]. split; [done|].
      by apply get_dictionary_path_no_cwd.
  - right. left. split; [done|].
    by apply (get_dictionary_path_uncopyable _ ns).
Qed.

(** The copy is a new object: every object of the store before the call is
    still there, with the same attributes. *)
Lemma get_dictionary_path_frame (args o : loc) (ns : namespace) (w : world) :
  heap w !! args = Some ns →
  is_Some (heap w !! o) →
  heap (get_dictionary_path args w).2 !! o = heap w !! o.
Proof.
  intros Hargs Ho.
  destruct (get_dictionary_path_cases _ _ _ Hargs)
    as [(_ & d & _ & ->)|[(_ & ->)|(_ & _ & ->)]]; cbn;
    [|done|]; apply lookup_insert_ne; by apply fresh_heap_ne.
Qed.

Lemma get_dictionary_path_streams (args : loc) (ns : namespace) (w : world) :
  heap w !! args = Some ns →
  cwd (get_dictionary_path args w).2 = cwd w ∧
  stdout (get_dictionary_path args w).2 = stdout w ∧
  stderr (get_dictionary_path args w).2 = stderr w ∧
  warnings (get_dictionary_path args w).2 = warnings w.
Proof.
  intros Hargs.
  by destruct (get_dictionary_path_cases _ _ _ Hargs)
    as [(_ & d & _ & ->)|[(_ & ->)|(_ & _ & ->)]].
Qed.

Lemma add_valid_dictionary_run (args : loc) (ns : namespace) (d : string)
    (w : world) :
  heap w !! args = Some ns →
  all_copyable ns →
  cwd w = Some d →
  add_valid_dictionary args w =
    (Return args,
     set_heap
       (<[args := <["dictionary" := default PyNone (ns !! "dictionary")]> ns]>
          (<[fresh (dom (heap w)) := resolver_copy d ns]> (heap w)))
       w).
Proof.
  intros Hargs Hcopy Hcwd. unfold add_valid_dictionary, bind.
  rewrite (get_dictionary_path_run _ _ _ _ Hargs Hcopy Hcwd).
  unfold setattr, ret. cbn.
  rewrite lookup_insert_ne, Hargs; [done|]. apply fresh_heap_ne. eauto.
Qed.

Lemma add_valid_dictionary_raise (args : loc) (e : exn) (w w' : world) :
  get_dictionary_path args w = (Raise e, w') →
  add_valid_dictionary args w = (Raise e, w').
Proof. intros Hrun. unfold add_valid_dictionary, bind. by rewrite Hrun. Qed.

Lemma try_except_return {A} (body handler : M A) (catches : exn → bool)
    (a : A) (w w' : world) :
  body w = (Return a, w') →
  try_except body catches handler w = (Return a, w').
Proof. intros Hb. unfold try_except. by rewrite Hb. Qed.

Lemma base_validate_args_run (p : root_parser) (args : loc) (ns : namespace)
    (d : string) (w : world) :
  heap w !! args = Some ns →
  all_copyable ns →
  cwd w = Some d →
  base_validate_args p args w = add_valid_dictionary args w.
Proof.
  intros Hargs Hcopy Hcwd. unfold base_validate_args, bind.
  rewrite (try_except_return _ _ _ _ _ _
             (add_valid_dictionary_run _ _ _ _ Hargs Hcopy Hcwd)).
  by rewrite (add_valid_dictionary_run _ _ _ _ Hargs Hcopy Hcwd).
Qed.

Lemma base_validate_args_result (p : root_parser) (args : loc) (ns : namespace)
    (d : string) (w : world) :
  heap w !! args = Some ns →
  all_copyable ns →
  cwd w = Some d →
  base_validate_args p args w =
    (Return args,
     set_heap
       (<[args := <["dictionary" := default PyNone (ns !! "dictionary")]> ns]>
          (<[fresh (dom (heap w)) := resolver_copy d ns]> (heap w)))
       w).
Proof.
  intros Hargs Hcopy Hcwd.
  by rewrite (base_validate_args_run _ _ _ _ _ Hargs Hcopy Hcwd),
    (add_valid_dictionary_run _ _ _ _ Hargs Hcopy Hcwd).
Qed.

Lemma parser_error_run (p : root_parser) (message : string) (w : world) :
  parser_error p message w =
    (Raise (SystemExit (Some 2%Z)), after_parser_error p message w).
Proof.
  unfold parser_error, bind, print_stderr, sys_exit, raise, after_parser_error.
  cbn. by rewrite <- app_assoc.
Qed.

(** On a namespace with a value that cannot be copied the default validation
    ends in the usage error. *)
Lemma base_validate_args_uncopyable (p : root_parser) (args : loc)
    (ns : namespace) (w : world) :
  heap w !! args = Some ns →
  ¬ all_copyable ns →
  base_validate_args p args w =
    (Raise (SystemExit (Some 2%Z)),
     after_parser_error p "No valid project dictionary found" w).
Proof.
  intros Hargs Hcopy. unfold base_validate_args, bind at 1, try_except.
  rewrite (add_valid_dictionary_raise _ _ _ _
             (get_dictionary_path_uncopyable _ _ _ Hargs Hcopy)).
  cbn [is_ValueError]. unfold bind. by rewrite parser_error_run.
Qed.

Lemma base_validate_args_no_cwd (p : root_parser) (args : loc)
    (ns : namespace) (w : world) :
  heap w !! args = Some ns →
  all_copyable ns →
  cwd w = None →
  base_validate_args p args w =
    (Raise (FileNotFoundError "No such file or directory"),
     set_heap (<[fresh (dom (heap w)) := with_dictionary ns]> (heap w)) w).
Proof.
  intros Hargs Hcopy Hcwd. unfold base_validate_args, bind at 1, try_except.
  by rewrite (add_valid_dictionary_raise _ _ _ _
                (get_dictionary_path_no_cwd _ _ _ Hargs Hcopy Hcwd)).
Qed.

(** The default validation returns the namespace it was given, with every
    attribute kept and [dictionary] set, or raises and leaves it as it was. *)
Lemma base_validate_args_frame (p : root_parser) (args : loc) (ns : namespace)
    (w : world) :
  heap w !! args = Some ns →
  match base_validate_args p args w with
  | (Return args', w') =>
      args' = args ∧
      ∃ ns', heap w' !! args = Some ns' ∧
             (∀ k v, ns !! k = Some v → ns' !! k = Some v) ∧
             (∀ k, k ≠ "dictionary" → ns' !! k = ns !! k) ∧
             (ns !! "dictionary" = None → ns' !! "dictionary" = Some PyNone)
  | (Raise _, w') => heap w' !! args = Some ns
  end.
Proof.
  intros Hargs. destruct (decide (all_copyable ns)) as [Hcopy|Hcopy];
    [destruct (cwd w) as [d|] eqn:Hcwd|].
  - rewrite (base_validate_args_result _ _ _ _ _ Hargs Hcopy Hcwd).
    split; [done|]. eexists. split; [apply lookup_insert_eq|].
    split; [|split].
    + intros k v Hk. destruct (decide (k = "dictionary")) as [->|Hne].
      * by rewrite lookup_insert_eq, Hk.
      * by rewrite lookup_insert_ne.
    + intros k Hne. by rewrite lookup_insert_ne.
    + intros Hd. by rewrite lookup_insert_eq, Hd.
  - rewrite (base_validate_args_no_cwd _ _ _ _ Hargs Hcopy Hcwd). cbn.
    rewrite lookup_insert_ne; [done|]. apply fresh_heap_ne. eauto.
  - by rewrite (base_validate_args_uncopyable _ _ _ _ Hargs Hcopy).
Qed.

Lemma command_validate_args_run (p : root_parser) (args : loc) (ns : namespace)
    (cn il : pyval) (w : world) :
  heap w !! args = Some ns →
  ns !! "command_name" = Some cn →
  ns !! "is_printing_list" = Some il →
  command_validate_args p args w =
    if truthy cn || truthy il
    then base_validate_args p args w
    else (Raise (SystemExit (Some 2%Z)),
          after_parser_error p "One of command-name or --list is required" w).
Proof.
  intros Hargs Hcn Hil.
  unfold command_validate_args, bind at 1 2 3 4.
  unfold getattr at 1. rewrite Hargs, Hcn.
  destruct (truthy cn); cbn.
  - unfold bind. by destruct (base_validate_args p args w) as [[a|e] w'].
  - unfold bind at 1. unfold getattr. rewrite Hargs, Hil. cbn.
    destruct (truthy il); cbn.
    + unfold bind. by destruct (base_validate_args p args w) as [[a|e] w'].
    + unfold after_parser_error. cbn. by rewrite <- app_assoc.
Qed.

Lemma command_validate_args_truthy (p : root_parser) (args : loc)
    (ns : namespace) (cn : pyval) (w : world) :
  heap w !! args = Some ns →
  ns !! "command_name" = Some cn →
  truthy cn = true →
  command_validate_args p args w = base_validate_args p args w.
Proof.
  intros Hargs Hcn Htrue.
  unfold command_validate_args, bind at 1 2 3 4.
  unfold getattr at 1. rewrite Hargs, Hcn, Htrue. cbn.
  unfold bind. by destruct (base_validate_args p args w) as [[a|e] w'].
Qed.

Lemma command_validate_args_no_name (p : root_parser) (args : loc)
    (ns : namespace) (w : world) :
  heap w !! args = Some ns →
  ns !! "command_name" = None →
  command_validate_args p args w = (Raise (AttributeError "command_name"), w).
Proof.
  intros Hargs Hcn. unfold command_validate_args, bind at 1.
  unfold getattr at 1. by rewrite Hargs, Hcn.
Qed.

Lemma command_validate_args_no_list (p : root_parser) (args : loc)
    (ns : namespace) (cn : pyval) (w : world) :
  heap w !! args = Some ns →
  ns !! "command_name" = Some cn →
  truthy cn = false →
  ns !! "is_printing_list" = None →
  command_validate_args p args w =
    (Raise (AttributeError "is_printing_list"), w).
Proof.
  intros Hargs Hcn Hfalse Hil.
  unfold command_validate_args, bind at 1 2 3 4.
  unfold getattr at 1. rewrite Hargs, Hcn, Hfalse. cbn.
  unfold bind, getattr. by rewrite Hargs, Hil.
Qed.

(** The validation of [command-send] is the default validation, or raises
    before it and leaves the world's store as it was. *)
Lemma command_validate_args_cases (p : root_parser) (args : loc)
    (ns : namespace) (w : world) :
  heap w !! args = Some ns →
  (command_validate_args p args w = base_validate_args p args w ∧
   ∃ cn, ns !! "command_name" = Some cn ∧
         (truthy cn = true ∨
          ∃ il, ns !! "is_printing_list" = Some il ∧ truthy il = true)) ∨
  (∃ e w', command_validate_args p args w = (Raise e, w') ∧ heap w' = heap w).
Proof.
  intros Hargs.
  destruct (ns !! "command_name") as [cn|] eqn:Hcn;
    [|right; eexists _, _; split;
      [by apply (command_validate_args_no_name _ _ _ _ Hargs Hcn)|done]].
  destruct (truthy cn) eqn:Hcnt.
  { left. split; [by eapply command_validate_args_truthy|]. eauto. }
  destruct (ns !! "is_printing_list") as [il|] eqn:Hil;
    [|right; eexists _, _; split;
      [by apply (command_validate_args_no_list _ _ _ _ _ Hargs Hcn Hcnt Hil)|done]].
  rewrite (command_validate_args_run _ _ _ _ _ _ Hargs Hcn Hil), Hcnt.
  destruct (truthy il) eqn:Hilt; cbn.
  - left. split; [done|]. eauto 6.
  - right. by eexists _, _.
Qed.


(** C7: resolving twice gives the same answer.  The second call runs in the
    world the first one left; the namespace and the working directory it reads
    are as they were, and its outcome (a path, [None], or the failure) is that
    of the first call. *)
Theorem get_dictionary_path_idempotent (args : loc) (w : world) :
  heap (get_dictionary_path args w).2 !! args = heap w !! args ∧
  cwd (get_dictionary_path args w).2 = cwd w ∧
  (get_dictionary_path args (get_dictionary_path args w).2).1 =
  (get_dictionary_path args w).1.
Proof.
  destruct (heap w !! args) as [ns|] eqn:Hargs.
  - assert (Hkeep : heap (get_dictionary_path args w).2 !! args = Some ns).
    { rewrite <- Hargs. by eapply get_dictionary_path_frame. }
    destruct (get_dictionary_path_streams _ _ _ Hargs) as (Hcwd & _).
    split; [done|]. split; [done|].
    destruct (get_dictionary_path_cases _ _ _ Hargs)
      as [(Hcopy & d & Hd & Hrun)|[(Hcopy & Hrun)|(Hcopy & Hd & Hrun)]].
    + rewrite <- Hcwd in Hd.
      rewrite (get_dictionary_path_run _ _ _ _ Hkeep Hcopy Hd).
      by rewrite Hrun.
    + rewrite (get_dictionary_path_uncopyable _ _ _ Hkeep Hcopy).
      by rewrite Hrun.
    + rewrite <- Hcwd in Hd.
      rewrite (get_dictionary_path_no_cwd _ _ _ Hkeep Hcopy Hd).
      by rewrite Hrun.
  - rewrite !(get_dictionary_path_dangling _ _ Hargs). cbn.
    rewrite (get_dictionary_path_dangling _ _ Hargs). by rewrite Hargs.
Qed.

(** C8: validation leaves what the user supplied alone.
    [get_dictionary_path] works on a copy: after it, the namespace it was
    given and every other object of the store are unchanged.  [validate_args]
    of any subcommand either rejects, and then the namespace is unchanged, or
    returns the same namespace object, in which every attribute that was
    set keeps its value (an explicit [dictionary] included) and the only
    attribute that can be new is [dictionary]. *)
Theorem validation_preserves_supplied_arguments (cls : injector)
    (p : root_parser) (args : loc) (ns : namespace) (w : world) :
  heap w !! args = Some ns →
  heap (get_dictionary_path args w).2 !! args = Some ns ∧
  (∀ o, is_Some (heap w !! o) →
        heap (get_dictionary_path args w).2 !! o = heap w !! o) ∧
  match validate_args cls p args w with
  | (Return args', w') =>
      args' = args ∧
      ∃ ns', heap w' !! args = Some ns' ∧
             (∀ k v, ns !! k = Some v → ns' !! k = Some v) ∧
             (∀ k, k ≠ "dictionary" → ns' !! k = ns !! k) ∧
             (ns !! "dictionary" = None → ns' !! "dictionary" = Some PyNone)
  | (Raise _, w') => heap w' !! args = Some ns
  end.
Proof.
  intros Hargs.
  pose proof (base_validate_args_frame p _ _ _ Hargs) as Hbase.
  split; [|split].
  - rewrite <- Hargs. by eapply get_dictionary_path_frame.
  - intros o Ho. by eapply get_dictionary_path_frame.
  - destruct cls; cbn [validate_args]; try exact Hbase.
    destruct (command_validate_args_cases p _ _ _ Hargs)
      as [[-> _]|(e & w' & -> & Hheap)]; [exact Hbase|].
    by rewrite Hheap.
Qed.

(** ** Properties of validation, completion and dispatch *)

(** C2, as the code has it: on a namespace of the [command-send] subparser
    ([command_name] is [None] or a string, [is_printing_list] a boolean, every
    value one that is copied), in a working directory that exists,
    [validate_args] ends in [parser.error] (exit status 2, the message on
    stderr) exactly when the command name is [None] or the empty string and
    the list flag is false; in every other case it is the default validation,
    which returns the namespace. *)
Theorem command_validate_args_rejects_iff (p : root_parser) (args : loc)
    (ns : namespace) (cn : pyval) (b : bool) (w : world) :
  heap w !! args = Some ns →
  all_copyable ns →
  is_Some (cwd w) →
  ns !! "command_name" = Some cn →
  (cn = PyNone ∨ ∃ s, cn = PyStr s) →
  ns !! "is_printing_list" = Some (PyBool b) →
  (usage_error (validate_args CommandSend p args w) ↔
     (cn = PyNone ∨ cn = PyStr "") ∧ b = false) ∧
  ((cn = PyNone ∨ cn = PyStr "") ∧ b = false →
     validate_args CommandSend p args w =
       (Raise (SystemExit (Some 2%Z)),
        after_parser_error p "One of command-name or --list is required" w) ∧
     exit_status (SystemExit (Some 2%Z)) ≠ 0%Z) ∧
  (¬ ((cn = PyNone ∨ cn = PyStr "") ∧ b = false) →
     validate_args CommandSend p args w = base_validate_args p args w ∧
     (validate_args CommandSend p args w).1 = Return args).
Proof.
  intros Hargs Hcopy [d Hcwd] Hcn Hshape Hil. cbn [validate_args].
  rewrite (command_validate_args_run _ _ _ _ _ _ Hargs Hcn Hil).
  assert (Hbase : (base_validate_args p args w).1 = Return args).
  { by rewrite (base_validate_args_result _ _ _ _ _ Hargs Hcopy Hcwd). }
  assert (Hfalsy : truthy cn || truthy (PyBool b) = false ↔
                   (cn = PyNone ∨ cn = PyStr "") ∧ b = false).
  { rewrite orb_false_iff. cbn [truthy].
    destruct Hshape as [->|[s ->]]; cbn [truthy].
    - split; intros [_ Hb]; auto.
    - rewrite negb_false_iff, String.eqb_eq.
      split; intros [Hs Hb]; split; auto; [right|destruct Hs]; congruence. }
  destruct (truthy cn || truthy (PyBool b)) eqn:Htruth.
  - assert (Hnot : ¬ ((cn = PyNone ∨ cn = PyStr "") ∧ b = false)).
    { intros H. apply Hfalsy in H. discriminate. }
    split; [|split].
    + unfold usage_error. rewrite Hbase. split; [done|]. by intros H.
    + by intros H.
    + done.
  - pose proof (proj1 Hfalsy eq_refl) as Hyes.
    split; [|split].
    + done.
    + done.
    + by intros H.
Qed.

(** C5: when argparse returns a namespace whose [func] is [None] (no
    subcommand was selected), [parse_args] writes the help text to stdout and
    raises [SystemExit(None)], exit status 0.  Nothing else changed: stderr and
    the store are as argparse left them, so no [validate_args] ran; and [main]
    ends the same way for any command handlers, so none of them ran. *)
Theorem parse_args_no_subcommand (p : root_parser) (arguments : list string)
    (args : loc) (ns : namespace) (w w1 : world) :
  argparse_parse_args p arguments w = (Return args, w1) →
  heap w1 !! args = Some ns →
  ns !! "func" = Some PyNone →
  parse_args p arguments w =
    (Raise (SystemExit None),
     World (heap w1) (cwd w1) (stdout w1 ++ [format_help p]) (stderr w1)
       (warnings w1)) ∧
  exit_status (SystemExit None) = 0%Z ∧
  (∀ sys_argv w0,
     create_parser sys_argv = Return p →
     argcomplete_autocomplete p w0 = (Return tt, w) →
     tail sys_argv = arguments →
     main sys_argv w0 =
       (Raise (SystemExit None),
        World (heap w1) (cwd w1) (stdout w1 ++ [format_help p]) (stderr w1)
          (warnings w1))).
Proof.
  intros Hparse Hargs Hfunc.
  assert (Hrun : parse_args p arguments w =
    (Raise (SystemExit None),
     World (heap w1) (cwd w1) (stdout w1 ++ [format_help p]) (stderr w1)
       (warnings w1))).
  { unfold parse_args, bind at 1. rewrite Hparse.
    unfold bind at 1. unfold getattr at 1. by rewrite Hargs, Hfunc. }
  split; [done|]. split; [done|].
  intros sys_argv w0 Hcreate Hauto Htail.
  unfold main, bind at 1. unfold lift. rewrite Hcreate.
  unfold bind at 1. rewrite Hauto.
  unfold bind at 1. by rewrite Htail, Hrun.
Qed.


Lemma complete_command_name_run (prefix : string) (args : loc)
    (ns : namespace) (w : world) :
  heap w !! args = Some ns →
  all_copyable ns →
  is_Some (cwd w) →
  complete_command_name prefix args w =
    (let* command_names :=
       Dictionaries_command_names (default PyNone (ns !! "dictionary")) PyNone in
     ret (filter (fun name => startswith name prefix = true) command_names))
      (get_dictionary_path args w).2.
Proof.
  intros Hargs Hcopy [d Hcwd]. unfold complete_command_name, bind at 1.
  rewrite (try_except_return _ _ _ (inl (default PyNone (ns !! "dictionary")))
             w (get_dictionary_path args w).2); [done|].
  unfold bind, ret. by rewrite (get_dictionary_path_run _ _ _ _ Hargs Hcopy Hcwd).
Qed.


(** ** Properties of argument composition *)

Lemma obind_return {A B} (o : outcome A) (k : A → outcome B) (b : B) :
  obind o k = Return b → ∃ a, o = Return a ∧ k a = Return b.
Proof. destruct o as [a|e]; [|done]. intros Hk. by exists a. Qed.

Lemma group_add_argument_last (t : string) (acts : list action)
    (arg : specifier) (kw : kwargs) (p : parser) :
  group_add_argument (length (groups p)) arg kw (with_group t acts p) =
  match argparse_refuses (with_group t acts p) arg kw with
  | Some e => Raise e
  | None => Return (with_group t (acts ++ [to_action (arg, kw)]) p)
  end.
Proof.
  unfold group_add_argument.
  destruct (argparse_refuses (with_group t acts p) arg kw); [done|].
  unfold with_group. cbn. do 2 f_equal.
  rewrite <- (Nat.add_0_r (length (groups p))). by rewrite alter_app_r.
Qed.

Lemma for_items_app {K V S} (l1 l2 : list (K * V)) (body : K → V → S → outcome S)
    (s : S) :
  for_items (l1 ++ l2) body s = obind (for_items l1 body s) (for_items l2 body).
Proof.
  revert s. induction l1 as [|[k v] l1 IH]; intros s; [done|]. cbn.
  destruct (body k v s) as [s'|e]; [|done]. cbn. apply IH.
Qed.

(** A loop without a test returns exactly when argparse takes every entry,
    and then the group holds them all, in order. *)
Lemma for_items_register_accepted (t : string) (items : list (specifier * kwargs))
    (p : parser) :
  ∀ acts : list action,
    accepted t p acts items →
    for_items items
      (fun arg kw q => group_add_argument (length (groups p)) arg kw q)
      (with_group t acts p) =
    Return (with_group t (acts ++ (to_action <$> items)) p).
Proof.
  induction items as [|[arg kw] items IH]; intros acts Hacc; cbn.
  - by rewrite app_nil_r.
  - destruct Hacc as [Hfirst Hrest]. cbn in Hfirst.
    rewrite group_add_argument_last, Hfirst. cbn [obind].
    rewrite (IH _ Hrest). by rewrite <- app_assoc.
Qed.

Lemma for_items_register_return (t : string) (items : list (specifier * kwargs))
    (p : parser) :
  ∀ (acts : list action) (q' : parser),
    for_items items
      (fun arg kw q => group_add_argument (length (groups p)) arg kw q)
      (with_group t acts p) = Return q' →
    q' = with_group t (acts ++ (to_action <$> items)) p ∧
    accepted t p acts items.
Proof.
  induction items as [|[arg kw] items IH]; intros acts q' Hrun; cbn in Hrun.
  - injection Hrun as <-. by rewrite app_nil_r.
  - rewrite group_add_argument_last in Hrun.
    destruct (argparse_refuses (with_group t acts p) arg kw) eqn:Href; [done|].
    cbn [obind] in Hrun. destruct (IH _ _ Hrun) as [-> Hacc].
    split; [by rewrite fmap_cons, <- app_assoc|]. by split.
Qed.

(** The loop with the test does what the loop without it does on the
    retained entries: an entry that is left out never reaches argparse. *)
Lemma for_items_retain_filter (g : nat) (exclude : list string)
    (items : list (specifier * kwargs)) :
  Forall (fun item => item.1 ≠ []) items →
  ∀ q : parser,
    for_items items
      (fun arg kw q =>
         obind (index0 arg) (fun arg0 =>
           if bool_decide (arg0 ∉ exclude)
           then group_add_argument g arg kw q
           else Return q))
      q =
    for_items (filter (fun item => is_retained exclude item = true) items)
      (fun arg kw q => group_add_argument g arg kw q) q.
Proof.
  induction 1 as [|[arg kw] items Hne _ IH]; intros q; [done|].
  destruct arg as [|arg0 rest]; [done|].
  cbn [for_items index0 obind].
  destruct (decide (arg0 ∉ exclude)) as [Hex|Hex].
  - rewrite filter_cons_True
      by (unfold is_retained; cbn; by apply bool_decide_eq_true).
    rewrite bool_decide_eq_true_2 by done. cbn [for_items].
    destruct (group_add_argument g (arg0 :: rest) kw q); [apply IH|done].
  - rewrite filter_cons_False
      by (unfold is_retained; cbn; by rewrite bool_decide_eq_false_2).
    rewrite bool_decide_eq_false_2 by done. cbn [obind]. apply IH.
Qed.

(** With an entry keyed by the empty tuple the loop with the test does not
    return. *)
Lemma for_items_empty_never (g : nat) (exclude : list string)
    (items : list (specifier * kwargs)) :
  (∃ kw, ([], kw) ∈ items) →
  ∀ q q' : parser,
    for_items items
      (fun arg kw q =>
         obind (index0 arg) (fun arg0 =>
           if bool_decide (arg0 ∉ exclude)
           then group_add_argument g arg kw q
           else Return q))
      q ≠ Return q'.
Proof.
  induction items as [|[arg kw'] items IH]; intros [kw Hin] q q'.
  - by apply elem_of_nil in Hin.
  - destruct arg as [|arg0 rest]; [done|].
    apply elem_of_cons in Hin as [[=]|Hin].
    cbn [for_items index0 obind].
    destruct (bool_decide (arg0 ∉ exclude)); cbn [obind].
    + destruct (group_add_argument g (arg0 :: rest) kw' q); [|done].
      cbn [obind]. apply IH. eauto.
    + apply IH. eauto.
Qed.

(** When the loop with the test returns, the group holds the retained
    entries, in order. *)
Lemma for_items_retain_return (t : string) (exclude : list string)
    (items : list (specifier * kwargs)) (p : parser) :
  ∀ (acts : list action) (q' : parser),
    for_items items
      (fun arg kw q =>
         obind (index0 arg) (fun arg0 =>
           if bool_decide (arg0 ∉ exclude)
           then group_add_argument (length (groups p)) arg kw q
           else Return q))
      (with_group t acts p) = Return q' →
    q' = with_group t
           (acts ++ (to_action <$>
                       filter (fun item => is_retained exclude item = true) items))
           p.
Proof.
  induction items as [|[arg kw] items IH]; intros acts q' Hrun.
  - cbn in Hrun. injection Hrun as <-. by rewrite app_nil_r.
  - destruct arg as [|arg0 rest]; [done|].
    cbn [for_items index0 obind] in Hrun.
    destruct (decide (arg0 ∉ exclude)) as [Hex|Hex].
    + rewrite filter_cons_True
        by (unfold is_retained; cbn; by apply bool_decide_eq_true).
      rewrite bool_decide_eq_true_2 in Hrun by done.
      rewrite group_add_argument_last in Hrun.
      destruct (argparse_refuses (with_group t acts p) (arg0 :: rest) kw);
        [done|].
      cbn [obind] in Hrun. rewrite (IH _ _ Hrun), fmap_cons.
      by rewrite <- app_assoc.
    + rewrite filter_cons_False
        by (unfold is_retained; cbn; by rewrite bool_decide_eq_false_2).
      rewrite bool_decide_eq_false_2 in Hrun by done. cbn [obind] in Hrun.
      by apply IH.
Qed.

Lemma registered_pairs_to_action (t : string) (items : list (specifier * kwargs)) :
  registered_pairs (ArgumentGroup t (to_action <$> items)) = items.
Proof.
  unfold registered_pairs. cbn. rewrite <- list_fmap_compose.
  rewrite <- (list_fmap_id items) at 2. apply list_fmap_ext. by intros ? [??].
Qed.

Lemma filter_retained_nil (items : list (specifier * kwargs)) :
  Forall (fun item => item.1 ≠ []) items →
  filter (fun item => is_retained [] item = true) items = items.
Proof.
  induction 1 as [|[arg kw] items Hne _ IH]; [done|].
  rewrite filter_cons_True, IH; [done|].
  unfold is_retained. cbn in *. destruct arg; [done|].
  apply bool_decide_eq_true. apply not_elem_of_nil.
Qed.

Lemma retained_first_flag (exclude : list string) (arg : specifier) (kw : kwargs) :
  is_retained exclude (arg, kw) = true ↔ ∃ arg0 rest, arg = arg0 :: rest ∧ arg0 ∉ exclude.
Proof.
  unfold is_retained. cbn. destruct arg as [|arg0 rest].
  - split; [done|]. by intros (? & ? & ? & ?).
  - rewrite bool_decide_eq_true. split; [by eauto|].
    by intros (? & ? & [= <- <-] & ?).
Qed.

Lemma add_connection_arguments_return (p p' : parser) :
  add_connection_arguments p = Return p' →
  p' = with_group "GDS Options"
         (to_action <$> StandardPipelineParser_get_arguments) p.
Proof.
  intros Hrun. by apply (for_items_register_return _ _ _ []) in Hrun as [-> _].
Qed.

Lemma add_search_arguments_return (p p' : parser) (command_name : string) :
  add_search_arguments p command_name = Return p' →
  p' = with_group "Search/Filtering Options"
         (to_action <$> SearchArgumentsParser_get_arguments command_name) p.
Proof.
  intros Hrun. by apply (for_items_register_return _ _ _ []) in Hrun as [-> _].
Qed.

Lemma add_retrieval_arguments_unfold (p : parser) (command_name : string)
    (exclude : option (list string)) :
  add_retrieval_arguments p command_name exclude =
    for_items (RetrievalArgumentsParser_get_arguments command_name)
      (fun arg kw q =>
         obind (index0 arg) (fun arg0 =>
           if bool_decide (arg0 ∉ default [] exclude)
           then group_add_argument (length (groups p)) arg kw q
           else Return q))
      (with_group "Retrieval Options" [] p).
Proof. by destruct exclude. Qed.

(** [add_retrieval_arguments] is the loop without the test on the retained
    entries of the table. *)
Lemma add_retrieval_arguments_filter (p : parser) (command_name : string)
    (exclude : option (list string)) :
  Forall (fun item => item.1 ≠ [])
    (RetrievalArgumentsParser_get_arguments command_name) →
  add_retrieval_arguments p command_name exclude =
    for_items
      (filter (fun item => is_retained (default [] exclude) item = true)
         (RetrievalArgumentsParser_get_arguments command_name))
      (fun arg kw q => group_add_argument (length (groups p)) arg kw q)
      (with_group "Retrieval Options" [] p).
Proof.
  intros Hne. unfold add_retrieval_arguments. cbn.
  destruct exclude as [exclude|]; cbn; by apply for_items_retain_filter.
Qed.

Lemma add_retrieval_arguments_return (p p' : parser) (command_name : string)
    (exclude : option (list string)) :
  Forall (fun item => item.1 ≠ [])
    (RetrievalArgumentsParser_get_arguments command_name) →
  add_retrieval_arguments p command_name exclude = Return p' →
  p' = with_group "Retrieval Options"
         (to_action <$>
            filter (fun item => is_retained (default [] exclude) item = true)
              (RetrievalArgumentsParser_get_arguments command_name))
         p.
Proof.
  intros Hne Hrun. rewrite (add_retrieval_arguments_filter _ _ _ Hne) in Hrun.
  by apply (for_items_register_return _ _ _ []) in Hrun as [-> _].
Qed.

Lemma add_retrieval_arguments_never (p p' : parser) (command_name : string)
    (exclude : option (list string)) (kw : kwargs) :
  ([], kw) ∈ RetrievalArgumentsParser_get_arguments command_name →
  add_retrieval_arguments p command_name exclude ≠ Return p'.
Proof.
  intros Hin. unfold add_retrieval_arguments. cbn.
  apply for_items_empty_never. eauto.
Qed.

Lemma add_argument_return (flags : specifier) (kw : kwargs)
    (c : option completer) (p p' : parser) :
  add_argument flags kw c p = Return p' →
  p' = Parser (prog p) (description p) (actions p ++ [Action flags kw c])
         (groups p) (defaults p).
Proof.
  unfold add_argument. destruct (argparse_refuses p flags kw); [done|].
  by intros [= <-].
Qed.

(** The last call that [add_arguments] makes is [add_retrieval_arguments],
    under the subcommand's table name and with its exclusion list. *)
Lemma add_arguments_retrieval (cls : injector) (p p' : parser) :
  add_arguments cls p = Return p' →
  ∃ p4, add_retrieval_arguments p4 (table_name cls) (retrieval_exclude cls) =
        Return p'.
Proof.
  intros Hrun. unfold add_arguments in Hrun. destruct cls.
  - apply obind_return in Hrun as (p1 & _ & Hrun).
    apply obind_return in Hrun as (p4 & _ & Hrun). by exists p4.
  - apply obind_return in Hrun as (p1 & _ & Hrun).
    apply obind_return in Hrun as (p2 & _ & Hrun).
    apply obind_return in Hrun as (p3 & _ & Hrun).
    apply obind_return in Hrun as (p4 & _ & Hrun). by exists p4.
  - apply obind_return in Hrun as (p1 & _ & Hrun).
    apply obind_return in Hrun as (p4 & _ & Hrun). by exists p4.
Qed.

(** C3: what the three subcommands register in their "Retrieval Options"
    group, for any retrieval table with non-empty specifiers that has the
    timeout option.  Whenever [add_arguments] returns, the group is the last
    one of the parser; for [command-send] it holds exactly the entries whose
    first flag is neither [-t] nor [--timeout], in table order and unchanged,
    and the timeout specifier is not among them; for [channels] and [events]
    it holds the whole table, the timeout specifier included.  The retrieval
    step returns whenever argparse takes the entries that are retained. *)
Theorem retrieval_arguments_timeout :
  (∀ name, Forall (fun item => item.1 ≠ [])
             (RetrievalArgumentsParser_get_arguments name)) →
  (∀ name, timeout_specifier ∈ (RetrievalArgumentsParser_get_arguments name).*1) →
  (∀ p p',
     add_arguments CommandSend p = Return p' →
     ∃ g,
       last (groups p') = Some g ∧ title g = "Retrieval Options" ∧
       (timeout_specifier ∉ (registered_pairs g).*1) ∧
       registered_pairs g =
         filter (fun item => is_retained ["-t"; "--timeout"] item = true)
           (RetrievalArgumentsParser_get_arguments "commands")) ∧
  (∀ p p',
     add_arguments Channels p = Return p' →
     ∃ g,
       last (groups p') = Some g ∧ title g = "Retrieval Options" ∧
       timeout_specifier ∈ (registered_pairs g).*1 ∧
       registered_pairs g = RetrievalArgumentsParser_get_arguments "channels") ∧
  (∀ p p',
     add_arguments Events p = Return p' →
     ∃ g,
       last (groups p') = Some g ∧ title g = "Retrieval Options" ∧
       timeout_specifier ∈ (registered_pairs g).*1 ∧
       registered_pairs g = RetrievalArgumentsParser_get_arguments "events") ∧
  (∀ cls p,
     accepted "Retrieval Options" p []
       (filter (fun item =>
                  is_retained (default [] (retrieval_exclude cls)) item = true)
          (RetrievalArgumentsParser_get_arguments (table_name cls))) →
     ∃ p', add_retrieval_arguments p (table_name cls) (retrieval_exclude cls) =
           Return p').
Proof.
  intros Hne Htimeout. split; [|split; [|split]].
  - intros p p' Hrun.
    apply add_arguments_retrieval in Hrun as (p4 & Hrun).
    apply (add_retrieval_arguments_return _ _ _ _ (Hne _)) in Hrun as ->.
    eexists. split; [apply last_snoc|]. split; [done|].
    rewrite registered_pairs_to_action. split; [|done].
    intros Hin. apply list_elem_of_fmap in Hin as ([arg kw] & Harg & Hin).
    apply list_elem_of_filter in Hin as [Hret _]. cbn in Harg. subst arg.
    apply retained_first_flag in Hret as (arg0 & rest & [= <- <-] & Hex).
    apply Hex. apply list_elem_of_here.
  - intros p p' Hrun.
    apply add_arguments_retrieval in Hrun as (p4 & Hrun).
    apply (add_retrieval_arguments_return _ _ _ _ (Hne _)) in Hrun as ->.
    eexists. split; [apply last_snoc|]. split; [done|].
    rewrite registered_pairs_to_action. cbn [default retrieval_exclude].
    rewrite (filter_retained_nil _ (Hne _)). split; [apply Htimeout|done].
  - intros p p' Hrun.
    apply add_arguments_retrieval in Hrun as (p4 & Hrun).
    apply (add_retrieval_arguments_return _ _ _ _ (Hne _)) in Hrun as ->.
    eexists. split; [apply last_snoc|]. split; [done|].
    rewrite registered_pairs_to_action. cbn [default retrieval_exclude].
    rewrite (filter_retained_nil _ (Hne _)). split; [apply Htimeout|done].
  - intros cls p Hacc. eexists.
    rewrite (add_retrieval_arguments_filter _ _ _ (Hne _)).
    by apply (for_items_register_accepted _ _ _ []).
Qed.

(** C10: exclusion looks at the first flag only.  On a table with non-empty
    specifiers, [add_retrieval_arguments] with an exclusion list is the loop
    that hands to argparse the entries whose first flag is not listed, and no
    other entry.  When argparse takes them, the call returns, an entry whose
    first flag is listed is left out as a whole, and an entry whose first flag
    is not listed is registered whatever its other flags are, also when one
    of them is in the list. *)
Theorem exclusion_tests_first_flag_only (p : parser) (command_name : string)
    (exclude : list string) :
  Forall (fun item => item.1 ≠ [])
    (RetrievalArgumentsParser_get_arguments command_name) →
  accepted "Retrieval Options" p []
    (filter (fun item => is_retained exclude item = true)
       (RetrievalArgumentsParser_get_arguments command_name)) →
  add_retrieval_arguments p command_name (Some exclude) =
    for_items
      (filter (fun item => is_retained exclude item = true)
         (RetrievalArgumentsParser_get_arguments command_name))
      (fun arg kw q => group_add_argument (length (groups p)) arg kw q)
      (with_group "Retrieval Options" [] p) ∧
  ∃ p' g,
    add_retrieval_arguments p command_name (Some exclude) = Return p' ∧
    last (groups p') = Some g ∧
    ∀ arg0 rest kw,
      (arg0 :: rest, kw) ∈ RetrievalArgumentsParser_get_arguments command_name →
      (arg0 ∈ exclude → (arg0 :: rest) ∉ (registered_pairs g).*1) ∧
      (arg0 ∉ exclude → (arg0 :: rest, kw) ∈ registered_pairs g).
Proof.
  intros Hne Hacc.
  split; [exact (add_retrieval_arguments_filter p command_name (Some exclude) Hne)|].
  eexists _, _. split.
  { rewrite (add_retrieval_arguments_filter _ _ _ Hne).
    by apply (for_items_register_accepted _ _ _ []). }
  split; [apply last_snoc|].
  intros arg0 rest kw Hin. rewrite app_nil_l, registered_pairs_to_action.
  cbn [default]. split.
  - intros Hex Hreg.
    apply list_elem_of_fmap in Hreg as ([arg kw'] & Harg & Hreg).
    apply list_elem_of_filter in Hreg as [Hret _]. cbn in Harg. subst arg.
    by apply retained_first_flag in Hret as (? & ? & [= <- <-] & ?).
  - intros Hex. apply list_elem_of_filter. split; [|done].
    apply retained_first_flag. eauto.
Qed.

(** ** Further properties of argument composition *)

(** The connection and the search group take their whole table, with no
    test on the specifier: when argparse takes every entry, the new group
    comes last and holds the entries of the table in order, and the parser's
    own arguments, its earlier groups and its defaults are as before. *)
Theorem unfiltered_groups_register_whole_table (p : parser) (command_name : string) :
  accepted "GDS Options" p [] StandardPipelineParser_get_arguments →
  accepted "Search/Filtering Options" p []
    (SearchArgumentsParser_get_arguments command_name) →
  (∃ g,
     add_connection_arguments p =
       Return (Parser (prog p) (description p) (actions p) (groups p ++ [g])
                 (defaults p)) ∧
     title g = "GDS Options" ∧
     registered_pairs g = StandardPipelineParser_get_arguments) ∧
  (∃ g,
     add_search_arguments p command_name =
       Return (Parser (prog p) (description p) (actions p) (groups p ++ [g])
                 (defaults p)) ∧
     title g = "Search/Filtering Options" ∧
     registered_pairs g = SearchArgumentsParser_get_arguments command_name).
Proof.
  intros Hgds Hsearch. split.
  - eexists. split; [|split; [|apply registered_pairs_to_action]]; [|done].
    exact (for_items_register_accepted _ _ _ [] Hgds).
  - eexists. split; [|split; [|apply registered_pairs_to_action]]; [|done].
    exact (for_items_register_accepted _ _ _ [] Hsearch).
Qed.

(** A retrieval table with an entry keyed by the empty tuple: the call never
    returns a parser, and it raises [IndexError], from the test on the first
    flag, when argparse took the retained entries that stand before the empty
    one. *)
Theorem add_retrieval_arguments_empty_specifier (p : parser)
    (command_name : string) (exclude : option (list string))
    (before after : list (specifier * kwargs)) (kw : kwargs) :
  RetrievalArgumentsParser_get_arguments command_name =
    (before ++ ([], kw) :: after)%list →
  (∀ p', add_retrieval_arguments p command_name exclude ≠ Return p') ∧
  (Forall (fun item => item.1 ≠ []) before →
   accepted "Retrieval Options" p []
     (filter (fun item => is_retained (default [] exclude) item = true) before) →
   add_retrieval_arguments p command_name exclude =
     Raise (IndexError "tuple index out of range")).
Proof.
  intros Htable. split.
  - intros p'. apply (add_retrieval_arguments_never _ _ _ _ kw).
    rewrite Htable. apply elem_of_app. right. apply list_elem_of_here.
  - intros Hne Hacc. rewrite add_retrieval_arguments_unfold, Htable.
    rewrite for_items_app, (for_items_retain_filter _ _ _ Hne).
    by rewrite (for_items_register_accepted _ _ _ [] Hacc).
Qed.

(** What a subcommand has added to its parser when [add_arguments] returns:
    three groups, in the order connection, search, retrieval, after the
    groups the parser had; the connection group holds the pipeline table and
    the search group the search table asked for under [channels], [commands]
    or [events]; only [command-send] has added arguments of its own, the
    positional [command_name], which carries the completer, and
    [--arguments]; program name, description and defaults are untouched. *)
Theorem add_arguments_composition (cls : injector) (p p' : parser) :
  add_arguments cls p = Return p' →
  ∃ gds search retrieval new,
    prog p' = prog p ∧ description p' = description p ∧
    defaults p' = defaults p ∧
    groups p' = (groups p ++ [gds; search; retrieval])%list ∧
    title gds = "GDS Options" ∧
    title search = "Search/Filtering Options" ∧
    title retrieval = "Retrieval Options" ∧
    registered_pairs gds = StandardPipelineParser_get_arguments ∧
    registered_pairs search =
      SearchArgumentsParser_get_arguments
        (match cls with
         | Channels => "channels"
         | CommandSend => "commands"
         | Events => "events"
         end) ∧
    actions p' = (actions p ++ new)%list ∧
    new =
      match cls with
      | CommandSend =>
          [Action ["command_name"] command_name_kwargs
             (Some complete_command_name_ref);
           Action ["--arguments"] arguments_kwargs None]
      | Channels | Events => []
      end.
Proof.
  intros Hrun. unfold add_arguments in Hrun. destruct cls.
  - apply obind_return in Hrun as (p1 & H1 & Hrun).
    apply obind_return in Hrun as (p4 & H4 & Hrun).
    apply add_connection_arguments_return in H1 as ->.
    apply add_search_arguments_return in H4 as ->.
    apply (for_items_retain_return _ _ _ _ []) in Hrun as ->.
    eexists _, _, _, []. cbn. rewrite <- !app_assoc, app_nil_r.
    repeat split; try done; apply registered_pairs_to_action.
  - apply obind_return in Hrun as (p1 & H1 & Hrun).
    apply obind_return in Hrun as (p2 & H2 & Hrun).
    apply obind_return in Hrun as (p3 & H3 & Hrun).
    apply obind_return in Hrun as (p4 & H4 & Hrun).
    apply add_connection_arguments_return in H1 as ->.
    apply add_argument_return in H2 as ->.
    apply add_argument_return in H3 as ->.
    apply add_search_arguments_return in H4 as ->.
    apply (for_items_retain_return _ _ _ _ []) in Hrun as ->.
    eexists _, _, _, [_; _]. cbn. rewrite <- !app_assoc.
    repeat split; try done; apply registered_pairs_to_action.
  - apply obind_return in Hrun as (p1 & H1 & Hrun).
    apply obind_return in Hrun as (p4 & H4 & Hrun).
    apply add_connection_arguments_return in H1 as ->.
    apply add_search_arguments_return in H4 as ->.
    apply (for_items_retain_return _ _ _ _ []) in Hrun as ->.
    eexists _, _, _, []. cbn. rewrite <- !app_assoc, app_nil_r.
    repeat split; try done; apply registered_pairs_to_action.
Qed.

(** ** Properties of the root parser *)

Lemma add_arguments_fields (cls : injector) (p p' : parser) :
  add_arguments cls p = Return p' →
  prog p' = prog p ∧ description p' = description p ∧ defaults p' = defaults p.
Proof.
  intros Hrun. unfold add_arguments in Hrun. destruct cls.
  - apply obind_return in Hrun as (p1 & H1 & Hrun).
    apply obind_return in Hrun as (p4 & H4 & Hrun).
    apply add_connection_arguments_return in H1 as ->.
    apply add_search_arguments_return in H4 as ->.
    by apply (for_items_retain_return _ _ _ _ []) in Hrun as ->.
  - apply obind_return in Hrun as (p1 & H1 & Hrun).
    apply obind_return in Hrun as (p2 & H2 & Hrun).
    apply obind_return in Hrun as (p3 & H3 & Hrun).
    apply obind_return in Hrun as (p4 & H4 & Hrun).
    apply add_connection_arguments_return in H1 as ->.
    apply add_argument_return in H2 as ->.
    apply add_argument_return in H3 as ->.
    apply add_search_arguments_return in H4 as ->.
    by apply (for_items_retain_return _ _ _ _ []) in Hrun as ->.
  - apply obind_return in Hrun as (p1 & H1 & Hrun).
    apply obind_return in Hrun as (p4 & H4 & Hrun).
    apply add_connection_arguments_return in H1 as ->.
    apply add_search_arguments_return in H4 as ->.
    by apply (for_items_retain_return _ _ _ _ []) in Hrun as ->.
Qed.

Lemma inject_subparser_return (cls : injector) (parent parent' : root_parser) :
  inject_subparser cls parent = Return parent' →
  ∃ cp sp,
    add_arguments cls (create_subparser cls (prog (top parent))) = Return cp ∧
    parent' = RootParser (top parent) (subparsers_dest parent)
                (name_parser_map parent ++ [(subcommand_name cls, sp)]) ∧
    prog sp = prog (top parent) ++ " " ++ subcommand_name cls ∧
    description sp = subcommand_description cls ∧
    defaults sp = [("func", PyCommandFunc cls); ("validate", PyValidateArgs cls)].
Proof.
  intros Hrun. unfold inject_subparser in Hrun.
  apply obind_return in Hrun as (cp & Hcp & Hrun). injection Hrun as <-.
  destruct (add_arguments_fields _ _ _ Hcp) as (Hprog & Hdesc & Hdef).
  eexists cp, _. split; [done|]. split; [reflexivity|]. cbn.
  by rewrite Hprog, Hdesc, Hdef.
Qed.

(** The steps of a [create_parser] that returns. *)
Lemma create_parser_return (sys_argv : list string) (p : root_parser) :
  create_parser sys_argv = Return p →
  ∃ argv0 version p0 r1 r2,
    sys_argv0 sys_argv = Return argv0 ∧
    fprime_gds_version = Return version ∧
    add_argument ["-V"; "--version"]
      [("action", PyStr "version"); ("version", PyStr version)] None
      (ArgumentParser (os_path_basename argv0)
         "provides utilities for interacting with the F' Ground Data System (GDS)") =
      Return p0 ∧
    inject_subparser Channels (RootParser p0 "func" []) = Return r1 ∧
    inject_subparser CommandSend r1 = Return r2 ∧
    inject_subparser Events r2 = Return p.
Proof.
  intros Hrun. unfold create_parser in Hrun.
  apply obind_return in Hrun as (argv0 & Hargv & Hrun).
  apply obind_return in Hrun as (version & Hversion & Hrun).
  apply obind_return in Hrun as (p0 & Hp0 & Hrun).
  apply obind_return in Hrun as (r1 & Hr1 & Hrun).
  apply obind_return in Hrun as (r2 & Hr2 & Hrun).
  by exists argv0, version, p0, r1, r2.
Qed.

Lemma create_parser_prog (sys_argv : list string) (p : root_parser) :
  create_parser sys_argv = Return p →
  ∃ argv0, head sys_argv = Some argv0 ∧ prog (top p) = os_path_basename argv0.
Proof.
  intros Hrun.
  apply create_parser_return in Hrun
    as (argv0 & version & p0 & r1 & r2 & Hargv & _ & Hp0 & Hr1 & Hr2 & Hr3).
  apply add_argument_return in Hp0 as ->.
  apply inject_subparser_return in Hr1 as (? & ? & _ & -> & _).
  apply inject_subparser_return in Hr2 as (? & ? & _ & -> & _).
  apply inject_subparser_return in Hr3 as (? & ? & _ & -> & _).
  exists argv0. split; [|done]. by destruct sys_argv; [|injection Hargv as ->].
Qed.


(** If the retrieval table that one of the three subcommands asks for has an
    entry keyed by the empty tuple, [create_parser] returns no parser,
    whichever of the tables it is. *)
Theorem create_parser_empty_specifier (sys_argv : list string) (cls : injector)
    (kw : kwargs) (p : root_parser) :
  ([], kw) ∈ RetrievalArgumentsParser_get_arguments
               (match cls with
                | Channels => "channels"
                | CommandSend => "commands"
                | Events => "events"
                end) →
  create_parser sys_argv ≠ Return p.
Proof.
  intros Hin Hrun.
  apply create_parser_return in Hrun
    as (argv0 & version & p0 & r1 & r2 & _ & _ & _ & Hr1 & Hr2 & Hr3).
  apply inject_subparser_return in Hr1 as (c1 & ? & Hc1 & _).
  apply inject_subparser_return in Hr2 as (c2 & ? & Hc2 & _).
  apply inject_subparser_return in Hr3 as (c3 & ? & Hc3 & _).
  assert (Hcls : ∃ q q', add_arguments cls q = Return q')
    by (destruct cls; eauto).
  destruct Hcls as (q & q' & Hq).
  apply add_arguments_retrieval in Hq as (p4 & Hq).
  apply (add_retrieval_arguments_never _ _ _ _ kw) in Hq; [done|].
  by destruct cls.
Qed.

(** ** Further properties of validation *)

(** A validation that returns was the default validation, on a namespace and
    in a world where the resolver returns; for [command-send], the command
    name or the list flag was true. *)
Lemma validate_args_returns (cls : injector) (p : root_parser) (args a : loc)
    (ns : namespace) (w w1 : world) :
  heap w !! args = Some ns →
  validate_args cls p args w = (Return a, w1) →
  validate_args cls p args w = base_validate_args p args w ∧
  all_copyable ns ∧ (∃ d, cwd w = Some d) ∧
  (cls = CommandSend →
   ∃ cn, ns !! "command_name" = Some cn ∧
         (truthy cn = true ∨
          ∃ il, ns !! "is_printing_list" = Some il ∧ truthy il = true)).
Proof.
  intros Hargs Hret.
  assert (Hbase : validate_args cls p args w = base_validate_args p args w ∧
    (cls = CommandSend →
     ∃ cn, ns !! "command_name" = Some cn ∧
           (truthy cn = true ∨
            ∃ il, ns !! "is_printing_list" = Some il ∧ truthy il = true))).
  { destruct cls; [done| |done]. cbn [validate_args] in *.
    destruct (command_validate_args_cases p _ _ _ Hargs)
      as [[Heq Hcn]|(e & w' & Heq & _)]; [done|].
    by rewrite Heq in Hret. }
  destruct Hbase as [Hbase Hcmd]. split; [done|].
  rewrite Hbase in Hret.
  destruct (decide (all_copyable ns)) as [Hcopy|Hcopy];
    [|by rewrite (base_validate_args_uncopyable _ _ _ _ Hargs Hcopy) in Hret].
  destruct (cwd w) as [d|] eqn:Hcwd;
    [|by rewrite (base_validate_args_no_cwd _ _ _ _ Hargs Hcopy Hcwd) in Hret].
  eauto.
Qed.

Lemma validate_args_return (cls : injector) (p : root_parser) (args a : loc)
    (ns : namespace) (w w1 : world) :
  heap w !! args = Some ns →
  validate_args cls p args w = (Return a, w1) →
  a = args ∧
  heap w1 !! args =
    Some (<["dictionary" := default PyNone (ns !! "dictionary")]> ns) ∧
  cwd w1 = cwd w ∧ stdout w1 = stdout w ∧ stderr w1 = stderr w.
Proof.
  intros Hargs Hret.
  destruct (validate_args_returns _ _ _ _ _ _ _ Hargs Hret)
    as (Hbase & Hcopy & [d Hcwd] & _).
  rewrite Hbase, (base_validate_args_result _ _ _ _ _ Hargs Hcopy Hcwd) in Hret.
  injection Hret as <- <-. cbn. by rewrite lookup_insert_eq.
Qed.

(** On a namespace that lacks an attribute the test reads, the validation of
    [command-send] ends in [AttributeError], not in the usage error: without
    [command_name] at once, and with a false command name when
    [is_printing_list] is not there.  Nothing is written and the store is
    untouched. *)
Theorem command_validate_args_missing_attribute (p : root_parser) (args : loc)
    (ns : namespace) (w : world) :
  heap w !! args = Some ns →
  (ns !! "command_name" = None →
   validate_args CommandSend p args w =
     (Raise (AttributeError "command_name"), w)) ∧
  (∀ cn, ns !! "command_name" = Some cn → truthy cn = false →
         ns !! "is_printing_list" = None →
         validate_args CommandSend p args w =
           (Raise (AttributeError "is_printing_list"), w)).
Proof.
  intros Hargs. split.
  - by apply command_validate_args_no_name.
  - intros cn. by apply command_validate_args_no_list.
Qed.

(** With a true command name the list flag is not read: on a namespace whose
    values are copied, in a working directory that exists, the validation of
    [command-send] is the default one and returns the namespace, also when
    the namespace has no [is_printing_list] attribute at all. *)
Theorem command_name_short_circuits (p : root_parser) (args : loc)
    (ns : namespace) (cn : pyval) (w : world) :
  heap w !! args = Some ns →
  all_copyable ns →
  is_Some (cwd w) →
  ns !! "command_name" = Some cn →
  truthy cn = true →
  validate_args CommandSend p args w = base_validate_args p args w ∧
  (validate_args CommandSend p args w).1 = Return args ∧
  stderr (validate_args CommandSend p args w).2 = stderr w.
Proof.
  intros Hargs Hcopy [d Hcwd] Hcn Htrue. cbn [validate_args].
  rewrite (command_validate_args_truthy _ _ _ _ _ Hargs Hcn Htrue).
  by rewrite (base_validate_args_result _ _ _ _ _ Hargs Hcopy Hcwd).
Qed.

(** Validating twice is validating once: after a validation that returned,
    a second validation of the same namespace returns it again and leaves its
    attributes as the first one set them. *)
Theorem validate_args_idempotent (cls : injector) (p : root_parser)
    (args a : loc) (ns : namespace) (w w1 : world) :
  heap w !! args = Some ns →
  validate_args cls p args w = (Return a, w1) →
  ∃ w2, validate_args cls p args w1 = (Return args, w2) ∧
        heap w2 !! args = heap w1 !! args.
Proof.
  intros Hargs Hret.
  destruct (validate_args_returns _ _ _ _ _ _ _ Hargs Hret)
    as (_ & Hcopy & [d Hcwd] & Hcmd).
  destruct (validate_args_return _ _ _ _ _ _ _ Hargs Hret)
    as (_ & Hargs1 & Hcwd1 & _).
  rewrite <- Hcwd1 in Hcwd.
  assert (Hcopy1 : all_copyable
            (<["dictionary" := default PyNone (ns !! "dictionary")]> ns))
    by by apply all_copyable_insert, all_copyable_default.
  assert (Hbase : validate_args cls p args w1 = base_validate_args p args w1).
  { destruct cls; [done| |done]. cbn [validate_args].
    destruct (Hcmd eq_refl) as (cn & Hcn & Hor).
    assert (Hcn1 : (<["dictionary" := default PyNone (ns !! "dictionary")]> ns)
                     !! "command_name" = Some cn)
      by by rewrite lookup_insert_ne.
    destruct Hor as [Htrue|(il & Hil & Htrue)].
    - by eapply command_validate_args_truthy.
    - assert (Hil1 : (<["dictionary" := default PyNone (ns !! "dictionary")]> ns)
                       !! "is_printing_list" = Some il)
        by by rewrite lookup_insert_ne.
      rewrite (command_validate_args_run _ _ _ _ _ _ Hargs1 Hcn1 Hil1), Htrue.
      by rewrite orb_true_r. }
  rewrite Hbase, (base_validate_args_result _ _ _ _ _ Hargs1 Hcopy1 Hcwd).
  eexists. split; [reflexivity|]. cbn.
  rewrite lookup_insert_eq, Hargs1. f_equal.
  rewrite lookup_insert_eq. cbn. apply insert_insert_eq.
Qed.

(** ** Further properties of dispatch *)

Lemma parse_args_selected (cls : injector) (p : root_parser)
    (arguments : list string) (args : loc) (ns : namespace) (fv : pyval)
    (w w1 : world) :
  argparse_parse_args p arguments w = (Return args, w1) →
  heap w1 !! args = Some ns →
  ns !! "func" = Some fv →
  truthy fv = true →
  ns !! "validate" = Some (PyValidateArgs cls) →
  parse_args p arguments w = validate_args cls p args w1.
Proof.
  intros Hparse Hargs Hfunc Htrue Hval.
  unfold parse_args, bind at 1. rewrite Hparse.
  unfold bind at 1. unfold getattr at 1. rewrite Hargs, Hfunc, Htrue. cbn.
  unfold bind at 1. unfold getattr at 1. rewrite Hargs, Hval. cbn.
  unfold bind, ret. by destruct (validate_args cls p args w1) as [[a|e] w2].
Qed.

(** [main] validates, then executes.  When argparse returns the namespace of
    a selected subcommand, with [func] and [validate] as [inject_subparser]
    set them, [parse_args] is that subcommand's validation; if it returns,
    [main] is the subcommand's handler, called on the same namespace, now
    carrying its [dictionary], in the world the validation left; if it raises,
    [main] raises the same and no handler is called. *)
Theorem main_validates_then_executes (cls : injector) (p : root_parser)
    (sys_argv : list string) (args : loc) (ns : namespace) (w0 w w1 : world) :
  create_parser sys_argv = Return p →
  argcomplete_autocomplete p w0 = (Return tt, w) →
  argparse_parse_args p (tail sys_argv) w = (Return args, w1) →
  heap w1 !! args = Some ns →
  ns !! "func" = Some (PyCommandFunc cls) →
  ns !! "validate" = Some (PyValidateArgs cls) →
  parse_args p (tail sys_argv) w = validate_args cls p args w1 ∧
  match validate_args cls p args w1 with
  | (Return _, w2) =>
      main sys_argv w0 = handle_arguments cls args w2 ∧
      heap w2 !! args =
        Some (<["dictionary" := default PyNone (ns !! "dictionary")]> ns)
  | (Raise e, w2) => main sys_argv w0 = (Raise e, w2)
  end.
Proof.
  intros Hcreate Hauto Hparse Hargs Hfunc Hval.
  pose proof (parse_args_selected _ _ _ _ _ _ _ _ Hparse Hargs Hfunc eq_refl Hval)
    as Hsel.
  split; [exact Hsel|].
  assert (Hmain : main sys_argv w0 =
    (let* args_ns := parse_args p (tail sys_argv) in
     let* function := getattr args_ns "func" in
     call_function function args_ns) w).
  { unfold main, bind at 1. unfold lift. rewrite Hcreate.
    unfold bind at 1. by rewrite Hauto. }
  destruct (validate_args cls p args w1) as [[a|e] w2] eqn:Hv;
    rewrite Hmain; unfold bind at 1; rewrite Hsel; [|done].
  destruct (validate_args_return _ _ _ _ _ _ _ Hargs Hv) as (-> & Hargs2 & _).
  split; [|exact Hargs2].
  unfold bind, getattr. rewrite Hargs2, lookup_insert_ne, Hfunc by done.
  done.
Qed.

(** [command-send] without a command name and without the list flag, from
    the command line to the exit: [main] writes the usage and the error line,
    which starts with the base name of [sys.argv[0]], to stderr and raises
    [SystemExit(2)]; stdout and the store are as argparse left them, and no
    handler is called, whatever the handlers are. *)
Theorem main_rejects_command_send_without_name (p : root_parser)
    (sys_argv : list string) (args : loc) (ns : namespace) (cn il : pyval)
    (w0 w w1 : world) :
  create_parser sys_argv = Return p →
  argcomplete_autocomplete p w0 = (Return tt, w) →
  argparse_parse_args p (tail sys_argv) w = (Return args, w1) →
  heap w1 !! args = Some ns →
  ns !! "func" = Some (PyCommandFunc CommandSend) →
  ns !! "validate" = Some (PyValidateArgs CommandSend) →
  ns !! "command_name" = Some cn → truthy cn = false →
  ns !! "is_printing_list" = Some il → truthy il = false →
  ∃ argv0,
    head sys_argv = Some argv0 ∧
    main sys_argv w0 =
      (Raise (SystemExit (Some 2%Z)),
       World (heap w1) (cwd w1) (stdout w1)
         (stderr w1 ++
          [format_usage p;
           os_path_basename argv0 ++
           ": error: One of command-name or --list is required"])
         (warnings w1)) ∧
    exit_status (SystemExit (Some 2%Z)) = 2%Z.
Proof.
  intros Hcreate Hauto Hparse Hargs Hfunc Hval Hcn Hcnf Hil Hilf.
  destruct (create_parser_prog _ _ Hcreate) as (argv0 & Hhead & Hprog).
  exists argv0. split; [done|]. split; [|done].
  unfold main, bind at 1. unfold lift. rewrite Hcreate.
  unfold bind at 1. rewrite Hauto.
  unfold bind at 1.
  rewrite (parse_args_selected _ _ _ _ _ _ _ _ Hparse Hargs Hfunc eq_refl Hval).
  cbn [validate_args].
  rewrite (command_validate_args_run _ _ _ _ _ _ Hargs Hcn Hil), Hcnf, Hilf.
  unfold after_parser_error. by rewrite Hprog.
Qed.

(** ** Further properties of completion *)

Lemma filter_startswith_empty (names : list string) :
  filter (fun name => startswith name "" = true) names = names.
Proof.
  induction names as [|name names IH]; [done|].
  rewrite filter_cons_True, IH; [done|]. by destruct name.
Qed.

(** With the empty prefix the completer returns the whole index as the
    dictionary gives it, nothing dropped and nothing reordered. *)
Theorem complete_command_name_empty_prefix (args : loc) (ns : namespace)
    (names : list string) (w w2 : world) :
  heap w !! args = Some ns →
  all_copyable ns →
  is_Some (cwd w) →
  Dictionaries_command_names (default PyNone (ns !! "dictionary")) PyNone
    (get_dictionary_path args w).2 = (Return names, w2) →
  complete_command_name "" args w = (Return names, w2).
Proof.
  intros Hargs Hcopy Hcwd Hload.
  rewrite (complete_command_name_run _ _ _ _ Hargs Hcopy Hcwd).
  unfold bind, ret. by rewrite Hload, filter_startswith_empty.
Qed.

(** Only the path resolution is guarded.  Once the path is resolved, an
    exception raised while the dictionary is loaded, a [ValueError] included,
    leaves [complete_command_name] as it is: the completer raises it, in the
    world the loader left, and adds no warning of its own. *)
Theorem complete_command_name_load_failure (prefix : string) (args : loc)
    (ns : namespace) (e : exn) (w w2 : world) :
  heap w !! args = Some ns →
  all_copyable ns →
  is_Some (cwd w) →
  Dictionaries_command_names (default PyNone (ns !! "dictionary")) PyNone
    (get_dictionary_path args w).2 = (Raise e, w2) →
  complete_command_name prefix args w = (Raise e, w2) ∧
  warnings (get_dictionary_path args w).2 = warnings w.
Proof.
  intros Hargs Hcopy Hcwd Hload.
  rewrite (complete_command_name_run _ _ _ _ Hargs Hcopy Hcwd).
  unfold bind. rewrite Hload. split; [done|].
  by destruct (get_dictionary_path_streams _ _ _ Hargs) as (_ & _ & _ & ->).
Qed.

End Cli.

(** ** The results on the sample inputs *)

Lemma bare_args_copyable : all_copyable bare_args.
Proof. apply map_Forall_empty. Qed.

Lemma explicit_args_copyable : all_copyable explicit_args.
Proof. by apply map_Forall_singleton. Qed.


(** C1: the resolver on a namespace without a [dictionary] attribute, and on
    one whose explicit path names no file.  The first call returns [None]
    where the docstring promises an exception; the second returns the path as
    given, unchecked.  Neither call raises. *)
Lemma get_dictionary_path_unresolved_returns :
  (get_dictionary_path 1 (world_of bare_args)).1 = Return PyNone ∧
  (get_dictionary_path 1 (world_of explicit_args)).1 =
    Return (PyStr "/no/such/dictionary.xml").
Proof.
  split.
  - by rewrite (get_dictionary_path_run 1 bare_args _ (world_of bare_args)
                  eq_refl bare_args_copyable eq_refl).
  - by rewrite (get_dictionary_path_run 1 explicit_args _ (world_of explicit_args)
                  eq_refl explicit_args_copyable eq_refl).
Qed.

(** C4: the completer on a namespace without a [dictionary] attribute, for
    any dictionary loader.  Resolution does not fail, so nothing is warned and
    the empty list is not returned: the loader is called with the path [None]
    and the completer's outcome is the loader's. *)
Lemma complete_command_name_unresolved_loads
    (names : pyval → pyval → M (list string)) (prefix : string) :
  (get_dictionary_path 1 (world_of bare_args)).1 = Return PyNone ∧
  warnings (get_dictionary_path 1 (world_of bare_args)).2 = [] ∧
  complete_command_name names prefix 1 (world_of bare_args) =
    (let* command_names := names PyNone PyNone in
     ret (filter (fun name => startswith name prefix = true) command_names))
      (get_dictionary_path 1 (world_of bare_args)).2.
Proof.
  pose proof (get_dictionary_path_run 1 bare_args _ (world_of bare_args)
                eq_refl bare_args_copyable eq_refl) as Hrun.
  split; [by rewrite Hrun|]. split; [by rewrite Hrun|].
  unfold complete_command_name, bind at 1.
  rewrite (try_except_return _ _ _ (inl PyNone) (world_of bare_args)
             (get_dictionary_path 1 (world_of bare_args)).2); [done|].
  unfold bind, ret. by rewrite Hrun.
Qed.



Lemma validation_preserves_supplied_arguments_witness :
  heap (world_of explicit_args) !! 1%positive = Some explicit_args ∧
  heap (get_dictionary_path 1 (world_of explicit_args)).2 !! 1%positive =
    Some explicit_args ∧
  (∀ o, is_Some (heap (world_of explicit_args) !! o) →
        heap (get_dictionary_path 1 (world_of explicit_args)).2 !! o =
        heap (world_of explicit_args) !! o) ∧
  match validate_args sample_usage Channels sample_root 1 (world_of explicit_args) with
  | (Return args', w') =>
      args' = 1%positive ∧
      ∃ ns', heap w' !! 1%positive = Some ns' ∧
             (∀ k v, explicit_args !! k = Some v → ns' !! k = Some v) ∧
             (∀ k, k ≠ "dictionary" → ns' !! k = explicit_args !! k) ∧
             (explicit_args !! "dictionary" = None →
              ns' !! "dictionary" = Some PyNone)
  | (Raise _, w') => heap w' !! 1%positive = Some explicit_args
  end.
Proof.
  split; [reflexivity|].
  exact (validation_preserves_supplied_arguments sample_usage Channels
           sample_root 1 explicit_args (world_of explicit_args) eq_refl).
Defined.

Lemma sample_retrieval_table_nonempty (name : string) :
  Forall (fun item : list string * list (string * pyval) => item.1 ≠ [])
    (sample_retrieval_table name).
Proof. repeat constructor; discriminate. Qed.

Lemma retrieval_arguments_timeout_witness :
  (∀ name, Forall (fun item => item.1 ≠ []) (sample_retrieval_table name)) ∧
  (∀ name, timeout_specifier ∈ (sample_retrieval_table name).*1) ∧
  (∃ p' g,
     add_arguments sample_pipeline_table sample_search_table
       sample_retrieval_table sample_refuses CommandSend
       (ArgumentParser "fprime-cli command-send" "") = Return p' ∧
     last (groups p') = Some g ∧ title g = "Retrieval Options" ∧
     (timeout_specifier ∉ (registered_pairs g).*1) ∧
     registered_pairs g =
       filter (fun item => is_retained ["-t"; "--timeout"] item = true)
         (sample_retrieval_table "commands")) ∧
  (∃ p' g,
     add_arguments sample_pipeline_table sample_search_table
       sample_retrieval_table sample_refuses Channels
       (ArgumentParser "fprime-cli channels" "") = Return p' ∧
     last (groups p') = Some g ∧ title g = "Retrieval Options" ∧
     timeout_specifier ∈ (registered_pairs g).*1 ∧
     registered_pairs g = sample_retrieval_table "channels").
Proof.
  assert (Htimeout : ∀ name, timeout_specifier ∈ (sample_retrieval_table name).*1).
  { intros name. apply list_elem_of_here. }
  split; [exact sample_retrieval_table_nonempty|]. split; [exact Htimeout|].
  destruct (retrieval_arguments_timeout sample_pipeline_table sample_search_table
              sample_retrieval_table sample_refuses
              sample_retrieval_table_nonempty Htimeout)
    as (Hcommand & Hchannels & _).
  split.
  - destruct (add_arguments sample_pipeline_table sample_search_table
                sample_retrieval_table sample_refuses CommandSend
                (ArgumentParser "fprime-cli command-send" "")) as [p'|e] eqn:Hrun;
      [|vm_compute in Hrun; discriminate Hrun].
    destruct (Hcommand _ _ Hrun) as (g & Hg).
    exists p', g. split; [reflexivity|exact Hg].
  - destruct (add_arguments sample_pipeline_table sample_search_table
                sample_retrieval_table sample_refuses Channels
                (ArgumentParser "fprime-cli channels" "")) as [p'|e] eqn:Hrun;
      [|vm_compute in Hrun; discriminate Hrun].
    destruct (Hchannels _ _ Hrun) as (g & Hg).
    exists p', g. split; [reflexivity|exact Hg].
Defined.

Lemma exclusion_tests_first_flag_only_witness :
  Forall (fun item => item.1 ≠ []) (capital_retrieval_table "commands") ∧
  accepted sample_refuses "Retrieval Options"
    (ArgumentParser "fprime-cli command-send" "") []
    (filter (fun item => is_retained ["-t"; "--timeout"; "--json"] item = true)
       (capital_retrieval_table "commands")) ∧
  ∃ p' g,
    add_retrieval_arguments capital_retrieval_table sample_refuses
      (ArgumentParser "fprime-cli command-send" "") "commands"
      (Some ["-t"; "--timeout"; "--json"]) = Return p' ∧
    last (groups p') = Some g ∧
    ∀ arg0 rest kw,
      (arg0 :: rest, kw) ∈ capital_retrieval_table "commands" →
      (arg0 ∈ ["-t"; "--timeout"; "--json"] →
       (arg0 :: rest) ∉ (registered_pairs g).*1) ∧
      (arg0 ∉ ["-t"; "--timeout"; "--json"] →
       (arg0 :: rest, kw) ∈ registered_pairs g).
Proof.
  assert (Hne : Forall (fun item : list string * list (string * pyval) =>
                          item.1 ≠ []) (capital_retrieval_table "commands")).
  { repeat constructor; discriminate. }
  assert (Hacc : accepted sample_refuses "Retrieval Options"
            (ArgumentParser "fprime-cli command-send" "") []
            (filter (fun item =>
                       is_retained ["-t"; "--timeout"; "--json"] item = true)
               (capital_retrieval_table "commands"))).
  { solve_accepted. }
  split; [exact Hne|]. split; [exact Hacc|].
  exact (proj2 (exclusion_tests_first_flag_only capital_retrieval_table
                  sample_refuses (ArgumentParser "fprime-cli command-send" "")
                  "commands" ["-t"; "--timeout"; "--json"] Hne Hacc)).
Defined.

(** On the table whose timeout option is [-T], [--timeout], excluding [-t],
    [--timeout] and [--json] leaves out the entry that starts with [--json],
    with its flag [-j], and keeps the timeout entry, though [--timeout] is
    listed. *)
Example capital_timeout_is_registered :
  add_retrieval_arguments capital_retrieval_table sample_refuses
    (ArgumentParser "fprime-cli command-send" "") "commands"
    (Some ["-t"; "--timeout"; "--json"]) =
  Return (with_group "Retrieval Options"
            [Action ["-T"; "--timeout"] [("dest", PyStr "timeout")] None]
            (ArgumentParser "fprime-cli command-send" "")).
Proof. vm_compute. reflexivity. Qed.

(** A parser that already holds [-j] refuses the retrieval table: the sample
    argparse raises on the entry and no parser is returned. *)
Example held_flag_is_refused :
  add_retrieval_arguments sample_retrieval_table sample_refuses
    (with_group "Earlier Options"
       [Action ["-j"; "--json"] [("dest", PyStr "json")] None]
       (ArgumentParser "fprime-cli channels" ""))
    "channels" None =
  Raise (ArgumentError "conflicting option strings").
Proof. vm_compute. reflexivity. Qed.

Lemma missing_name_args_copyable : all_copyable missing_name_args.
Proof. solve_copyable. Qed.

Lemma command_validate_args_rejects_iff_witness :
  heap (world_of missing_name_args) !! 1%positive = Some missing_name_args ∧
  all_copyable missing_name_args ∧
  is_Some (cwd (world_of missing_name_args)) ∧
  missing_name_args !! "command_name" = Some PyNone ∧
  missing_name_args !! "is_printing_list" = Some (PyBool false) ∧
  validate_args sample_usage CommandSend sample_root 1 (world_of missing_name_args) =
    (Raise (SystemExit (Some 2%Z)),
     after_parser_error sample_usage sample_root
       "One of command-name or --list is required" (world_of missing_name_args)).
Proof.
  split; [reflexivity|]. split; [exact missing_name_args_copyable|].
  split; [by eexists|]. split; [reflexivity|]. split; [reflexivity|].
  destruct (command_validate_args_rejects_iff sample_usage sample_root 1
              missing_name_args PyNone false (world_of missing_name_args)
              eq_refl missing_name_args_copyable (ex_intro _ _ eq_refl)
              eq_refl (or_introl eq_refl) eq_refl)
    as (_ & Hreject & _).
  exact (proj1 (Hreject (conj (or_introl eq_refl) eq_refl))).
Defined.

(** C2 as stated fails on an empty command name: with [command_name] the
    empty string and the list flag false, [validate_args] ends in
    [parser.error], yet the command name is not absent. *)
Lemma empty_command_name_rejected :
  ¬ (usage_error
       (validate_args sample_usage CommandSend sample_root 1
          (world_of empty_name_args)) ↔
     command_name_absent empty_name_args ∧ list_mode_off empty_name_args).
Proof.
  intros [Hfwd _].
  destruct Hfwd as [Habsent _].
  - vm_compute. reflexivity.
  - vm_compute in Habsent. discriminate Habsent.
Qed.

Lemma parse_args_no_subcommand_witness :
  ∃ p,
    create_parser sample_pipeline_table sample_search_table
      sample_retrieval_table sample_refuses (Return "3.1.0") posix_basename
      ["/usr/local/bin/fprime-cli"] = Return p ∧
    sample_parse_args p [] empty_world =
      (Return 1%positive, world_of {["func" := PyNone]}) ∧
    parse_args sample_parse_args sample_usage sample_help p [] empty_world =
      (Raise (SystemExit None),
       World {[1%positive := {["func" := PyNone]}]} (Some "/home/user/Ref")
         [sample_help p] [] []) ∧
    main sample_pipeline_table sample_search_table sample_retrieval_table
      sample_refuses sample_parse_args sample_usage sample_help
      (Return "3.1.0") posix_basename
      sample_handle_arguments sample_autocomplete
      ["/usr/local/bin/fprime-cli"] empty_world =
      (Raise (SystemExit None),
       World {[1%positive := {["func" := PyNone]}]} (Some "/home/user/Ref")
         [sample_help p] [] []).
Proof.
  destruct (create_parser sample_pipeline_table sample_search_table
              sample_retrieval_table sample_refuses (Return "3.1.0")
              posix_basename ["/usr/local/bin/fprime-cli"])
    as [p|e] eqn:Hcreate;
    [|vm_compute in Hcreate; discriminate Hcreate].
  exists p. split; [reflexivity|].
  assert (Hparse : sample_parse_args p [] empty_world =
                   (Return 1%positive, world_of {["func" := PyNone]})).
  { vm_compute. reflexivity. }
  split; [exact Hparse|].
  destruct (parse_args_no_subcommand sample_pipeline_table sample_search_table
              sample_retrieval_table sample_refuses sample_parse_args
              sample_usage sample_help (Return "3.1.0") posix_basename
              sample_handle_arguments sample_autocomplete
              p [] 1 {["func" := PyNone]} empty_world
              (world_of {["func" := PyNone]}) Hparse eq_refl eq_refl)
    as (Hrun & _ & Hmain).
  split; [exact Hrun|].
  exact (Hmain ["/usr/local/bin/fprime-cli"] empty_world Hcreate eq_refl eq_refl).
Defined.


(** ** The further results on the sample inputs *)

Lemma unfiltered_groups_register_whole_table_witness :
  accepted sample_refuses "GDS Options"
    (ArgumentParser "fprime-cli channels" "") [] sample_pipeline_table ∧
  accepted sample_refuses "Search/Filtering Options"
    (ArgumentParser "fprime-cli channels" "") [] (sample_search_table "channels") ∧
  (∃ g,
     add_connection_arguments sample_pipeline_table sample_refuses
       (ArgumentParser "fprime-cli channels" "") =
       Return (Parser "fprime-cli channels" ""
                 (actions (ArgumentParser "fprime-cli channels" "")) [g] []) ∧
     title g = "GDS Options" ∧
     registered_pairs g = sample_pipeline_table) ∧
  (∃ g,
     add_search_arguments sample_search_table sample_refuses
       (ArgumentParser "fprime-cli channels" "") "channels" =
       Return (Parser "fprime-cli channels" ""
                 (actions (ArgumentParser "fprime-cli channels" "")) [g] []) ∧
     title g = "Search/Filtering Options" ∧
     registered_pairs g = sample_search_table "channels").
Proof.
  assert (Hgds : accepted sample_refuses "GDS Options"
            (ArgumentParser "fprime-cli channels" "") [] sample_pipeline_table).
  { solve_accepted. }
  assert (Hsearch : accepted sample_refuses "Search/Filtering Options"
            (ArgumentParser "fprime-cli channels" "") []
            (sample_search_table "channels")).
  { solve_accepted. }
  split; [exact Hgds|]. split; [exact Hsearch|].
  exact (unfiltered_groups_register_whole_table sample_pipeline_table
           sample_search_table sample_refuses
           (ArgumentParser "fprime-cli channels" "") "channels" Hgds Hsearch).
Defined.

Lemma add_retrieval_arguments_empty_specifier_witness :
  broken_retrieval_table "commands" =
    ([(["-j"; "--json"], [("dest", PyStr "json")])] ++
     ([], [("dest", PyStr "timeout")]) :: [])%list ∧
  (∀ p', add_retrieval_arguments broken_retrieval_table sample_refuses
           (ArgumentParser "fprime-cli command-send" "") "commands"
           (Some ["-t"; "--timeout"]) ≠ Return p') ∧
  add_retrieval_arguments broken_retrieval_table sample_refuses
    (ArgumentParser "fprime-cli command-send" "") "commands"
    (Some ["-t"; "--timeout"]) =
  Raise (IndexError "tuple index out of range").
Proof.
  split; [reflexivity|].
  destruct (add_retrieval_arguments_empty_specifier broken_retrieval_table
              sample_refuses (ArgumentParser "fprime-cli command-send" "")
              "commands" (Some ["-t"; "--timeout"])
              [(["-j"; "--json"], [("dest", PyStr "json")])] []
              [("dest", PyStr "timeout")] eq_refl)
    as [Hnever Hindex].
  split; [exact Hnever|].
  apply Hindex.
  - repeat constructor; discriminate.
  - solve_accepted.
Defined.

Lemma add_arguments_composition_witness :
  ∃ p' gds search retrieval new,
    add_arguments sample_pipeline_table sample_search_table
      sample_retrieval_table sample_refuses CommandSend
      (ArgumentParser "fprime-cli command-send" "") = Return p' ∧
    groups p' = [gds; search; retrieval] ∧
    title gds = "GDS Options" ∧
    title search = "Search/Filtering Options" ∧
    title retrieval = "Retrieval Options" ∧
    registered_pairs search = sample_search_table "commands" ∧
    actions p' =
      (actions (ArgumentParser "fprime-cli command-send" "") ++ new)%list ∧
    new =
      [Action ["command_name"] command_name_kwargs
         (Some complete_command_name_ref);
       Action ["--arguments"] arguments_kwargs None].
Proof.
  destruct (add_arguments sample_pipeline_table sample_search_table
              sample_retrieval_table sample_refuses CommandSend
              (ArgumentParser "fprime-cli command-send" "")) as [p'|e] eqn:Hrun;
    [|vm_compute in Hrun; discriminate Hrun].
  destruct (add_arguments_composition sample_pipeline_table sample_search_table
              sample_retrieval_table sample_refuses CommandSend
              (ArgumentParser "fprime-cli command-send" "") p' Hrun)
    as (gds & search & retrieval & new & _ & _ & _ & Hgroups & Hgds & Hsearch
        & Hretrieval & _ & Hpairs & Hactions & Hnew).
  exists p', gds, search, retrieval, new.
  split; [reflexivity|]. split; [exact Hgroups|]. split; [exact Hgds|].
  split; [exact Hsearch|]. split; [exact Hretrieval|]. split; [exact Hpairs|].
  split; [exact Hactions|exact Hnew].
Defined.


Lemma create_parser_empty_specifier_witness :
  ([], [("dest", PyStr "timeout")]) ∈ broken_retrieval_table "events" ∧
  ∀ p,
    create_parser sample_pipeline_table sample_search_table
      broken_retrieval_table sample_refuses (Return "3.1.0") posix_basename
      ["/usr/local/bin/fprime-cli"] ≠ Return p.
Proof.
  assert (Hin : ([], [("dest", PyStr "timeout")]) ∈ broken_retrieval_table "events").
  { apply list_elem_of_further, list_elem_of_here. }
  split; [exact Hin|]. intros p.
  exact (create_parser_empty_specifier sample_pipeline_table sample_search_table
           broken_retrieval_table sample_refuses (Return "3.1.0") posix_basename
           ["/usr/local/bin/fprime-cli"] Events _ p Hin).
Defined.

Lemma command_validate_args_missing_attribute_witness :
  heap (world_of bare_args) !! 1%positive = Some bare_args ∧
  validate_args sample_usage CommandSend sample_root 1 (world_of bare_args) =
    (Raise (AttributeError "command_name"), world_of bare_args).
Proof.
  split; [reflexivity|].
  exact (proj1 (command_validate_args_missing_attribute sample_usage sample_root
                  1 bare_args (world_of bare_args) eq_refl) eq_refl).
Defined.

Lemma named_args_copyable : all_copyable named_args.
Proof. solve_copyable. Qed.

Lemma command_name_short_circuits_witness :
  heap (world_of named_args) !! 1%positive = Some named_args ∧
  all_copyable named_args ∧
  is_Some (cwd (world_of named_args)) ∧
  named_args !! "command_name" = Some (PyStr "cmdDisp.CMD_NO_OP") ∧
  named_args !! "is_printing_list" = None ∧
  (validate_args sample_usage CommandSend sample_root 1 (world_of named_args)).1 =
    Return 1%positive.
Proof.
  split; [reflexivity|]. split; [exact named_args_copyable|].
  split; [by eexists|]. split; [reflexivity|]. split; [reflexivity|].
  exact (proj1 (proj2 (command_name_short_circuits sample_usage sample_root 1
                         named_args (PyStr "cmdDisp.CMD_NO_OP")
                         (world_of named_args) eq_refl named_args_copyable
                         (ex_intro _ _ eq_refl) eq_refl eq_refl))).
Defined.

Lemma validate_args_idempotent_witness :
  heap (world_of explicit_args) !! 1%positive = Some explicit_args ∧
  ∃ w2,
    validate_args sample_usage Channels sample_root 1
      (validate_args sample_usage Channels sample_root 1
         (world_of explicit_args)).2 = (Return 1%positive, w2) ∧
    heap w2 !! 1%positive =
    heap (validate_args sample_usage Channels sample_root 1
            (world_of explicit_args)).2 !! 1%positive.
Proof.
  split; [reflexivity|].
  assert (Hfirst : validate_args sample_usage Channels sample_root 1
                     (world_of explicit_args) =
                   (Return 1%positive,
                    (validate_args sample_usage Channels sample_root 1
                       (world_of explicit_args)).2)).
  { cbn [validate_args].
    rewrite (base_validate_args_result sample_usage sample_root 1 explicit_args
               _ (world_of explicit_args) eq_refl explicit_args_copyable eq_refl).
    reflexivity. }
  exact (validate_args_idempotent sample_usage Channels sample_root 1 1
           explicit_args (world_of explicit_args) _ eq_refl Hfirst).
Defined.

Lemma main_validates_then_executes_witness :
  ∃ p,
    create_parser sample_pipeline_table sample_search_table
      sample_retrieval_table sample_refuses (Return "3.1.0") posix_basename
      ["/usr/local/bin/fprime-cli"; "channels"; "--dictionary"; "dict.xml"] =
      Return p ∧
    sample_parse_subcommand p ["channels"; "--dictionary"; "dict.xml"] empty_world =
      (Return 1%positive, world_of channels_args) ∧
    match validate_args sample_usage Channels p 1 (world_of channels_args) with
    | (Return _, w2) =>
        main sample_pipeline_table sample_search_table sample_retrieval_table
          sample_refuses sample_parse_subcommand sample_usage sample_help
          (Return "3.1.0") posix_basename
          sample_handle_arguments sample_autocomplete
          ["/usr/local/bin/fprime-cli"; "channels"; "--dictionary"; "dict.xml"]
          empty_world =
        sample_handle_arguments Channels 1 w2 ∧
        heap w2 !! 1%positive =
          Some (<["dictionary" := default PyNone (channels_args !! "dictionary")]>
                  channels_args)
    | (Raise e, w2) =>
        main sample_pipeline_table sample_search_table sample_retrieval_table
          sample_refuses sample_parse_subcommand sample_usage sample_help
          (Return "3.1.0") posix_basename
          sample_handle_arguments sample_autocomplete
          ["/usr/local/bin/fprime-cli"; "channels"; "--dictionary"; "dict.xml"]
          empty_world =
        (Raise e, w2)
    end.
Proof.
  destruct (create_parser sample_pipeline_table sample_search_table
              sample_retrieval_table sample_refuses (Return "3.1.0")
              posix_basename
              ["/usr/local/bin/fprime-cli"; "channels"; "--dictionary"; "dict.xml"])
    as [p|e] eqn:Hcreate;
    [|vm_compute in Hcreate; discriminate Hcreate].
  exists p. split; [reflexivity|].
  assert (Hparse : sample_parse_subcommand p
                     ["channels"; "--dictionary"; "dict.xml"] empty_world =
                   (Return 1%positive, world_of channels_args)).
  { vm_compute. reflexivity. }
  split; [exact Hparse|].
  exact (proj2 (main_validates_then_executes sample_pipeline_table
                  sample_search_table sample_retrieval_table sample_refuses
                  sample_parse_subcommand sample_usage sample_help
                  (Return "3.1.0") posix_basename
                  sample_handle_arguments sample_autocomplete Channels p
                  ["/usr/local/bin/fprime-cli"; "channels"; "--dictionary"; "dict.xml"]
                  1 channels_args empty_world empty_world
                  (world_of channels_args)
                  Hcreate eq_refl Hparse eq_refl eq_refl eq_refl)).
Defined.

Lemma main_rejects_command_send_without_name_witness :
  ∃ p,
    create_parser sample_pipeline_table sample_search_table
      sample_retrieval_table sample_refuses (Return "3.1.0") posix_basename
      ["/usr/local/bin/fprime-cli"; "command-send"] = Return p ∧
    sample_parse_subcommand p ["command-send"] empty_world =
      (Return 1%positive, world_of rejected_args) ∧
    posix_basename "/usr/local/bin/fprime-cli" = "fprime-cli" ∧
    main sample_pipeline_table sample_search_table sample_retrieval_table
      sample_refuses sample_parse_subcommand sample_usage sample_help
      (Return "3.1.0") posix_basename
      sample_handle_arguments sample_autocomplete
      ["/usr/local/bin/fprime-cli"; "command-send"] empty_world =
    (Raise (SystemExit (Some 2%Z)),
     World {[1%positive := rejected_args]} (Some "/home/user/Ref") []
       [sample_usage p;
        posix_basename "/usr/local/bin/fprime-cli" ++
        ": error: One of command-name or --list is required"]
       []).
Proof.
  destruct (create_parser sample_pipeline_table sample_search_table
              sample_retrieval_table sample_refuses (Return "3.1.0")
              posix_basename ["/usr/local/bin/fprime-cli"; "command-send"])
    as [p|e] eqn:Hcreate;
    [|vm_compute in Hcreate; discriminate Hcreate].
  exists p. split; [reflexivity|].
  assert (Hparse : sample_parse_subcommand p ["command-send"] empty_world =
                   (Return 1%positive, world_of rejected_args)).
  { vm_compute. reflexivity. }
  split; [exact Hparse|]. split; [reflexivity|].
  destruct (main_rejects_command_send_without_name sample_pipeline_table
              sample_search_table sample_retrieval_table sample_refuses
              sample_parse_subcommand sample_usage sample_help
              (Return "3.1.0") posix_basename
              sample_handle_arguments sample_autocomplete p
              ["/usr/local/bin/fprime-cli"; "command-send"] 1 rejected_args
              PyNone (PyBool false) empty_world empty_world
              (world_of rejected_args)
              Hcreate eq_refl Hparse eq_refl eq_refl eq_refl
              eq_refl eq_refl eq_refl eq_refl)
    as (argv0 & Hhead & Hmain & _).
  injection Hhead as <-. exact Hmain.
Defined.

Lemma complete_command_name_empty_prefix_witness :
  heap (world_of explicit_args) !! 1%positive = Some explicit_args ∧
  all_copyable explicit_args ∧
  is_Some (cwd (world_of explicit_args)) ∧
  complete_command_name sample_command_names "" 1 (world_of explicit_args) =
    (Return ["EVENTS.CMD_A"; "EVENTS.CMD_B"; "OTHER.CMD_C"],
     (get_dictionary_path 1 (world_of explicit_args)).2).
Proof.
  split; [reflexivity|]. split; [exact explicit_args_copyable|].
  split; [by eexists|].
  exact (complete_command_name_empty_prefix sample_command_names 1
           explicit_args ["EVENTS.CMD_A"; "EVENTS.CMD_B"; "OTHER.CMD_C"]
           (world_of explicit_args)
           (get_dictionary_path 1 (world_of explicit_args)).2
           eq_refl explicit_args_copyable (ex_intro _ _ eq_refl) eq_refl).
Defined.

Lemma complete_command_name_load_failure_witness :
  heap (world_of explicit_args) !! 1%positive = Some explicit_args ∧
  all_copyable explicit_args ∧
  is_Some (cwd (world_of explicit_args)) ∧
  complete_command_name failing_command_names "EV" 1 (world_of explicit_args) =
    (Raise (ValueError "dictionary is not valid"),
     (get_dictionary_path 1 (world_of explicit_args)).2) ∧
  warnings (get_dictionary_path 1 (world_of explicit_args)).2 = [].
Proof.
  split; [reflexivity|]. split; [exact explicit_args_copyable|].
  split; [by eexists|].
  exact (complete_command_name_load_failure failing_command_names "EV" 1
           explicit_args (ValueError "dictionary is not valid")
           (world_of explicit_args)
           (get_dictionary_path 1 (world_of explicit_args)).2
           eq_refl explicit_args_copyable (ex_intro _ _ eq_refl) eq_refl).
Defined.
